(* ===== verification/_CoqProject ===== *)
-Q . S2P
Prelude.v
JsString.v
Types.v
FileReader.v
SpeechRecognition.v
SpeechSynthesis.v
Gemini.v
ReportView.v
Ats.v
Roadmap.v
Practice.v
Interview.v
InterviewReact.v
Quiz.v
App.v
