(* ===== verification/Prelude.v ===== *)
(** * A verification development of AI-Interview-Prep

    The program (src/) is a single-page React application with five tools
    that forward prompts to a hosted generative-language model: a quiz
    generator ([components/Quiz.tsx]), a roadmap generator
    ([components/RoadmapGenerator.tsx]), an ATS resume scanner
    ([components/AtsScanner.tsx]), a practice question/answer loop
    ([components/PracticeMode.tsx]) and a voice-driven mock interview
    ([components/InterviewMode.tsx]).  The tools share the service module
    [services/geminiService.ts] (prompt and response-schema construction for
    four requests), the file reader [utils/fileReader.ts], and two hooks that
    bridge the browser speech engines into React state
    ([hooks/useSpeechRecognition.ts], [hooks/useSpeechSynthesis.ts]).
    [App.tsx] switches between the tools.

    ** How the code is modelled

    - JavaScript strings are Rocq [string]s (one [ascii] per UTF-16 code unit
      below 256).  The built-ins the code calls ([trim], [toLowerCase],
      [includes], [join], template interpolation of numbers, truthiness of a
      string) are written out in [JsString.v] after the ECMAScript definitions
      restricted to that alphabet.
    - The TypeScript interfaces of [src/types/index.ts] are Records and
      Inductives in [Types.v]; a JS number that the code compares or prints is
      a [Z] (all numbers the model meets are integers).
    - A React component is a Record of its [useState] cells and refs; each
      handler is a Rocq function from the state the handler's closure saw (the
      render snapshot) and the live state to the live state after its
      synchronous part.  An [async] handler is cut at each [await]: the part
      before it returns, together with the state update, a pending
      continuation (a constructor of a [pending] type carrying the values the
      closure captured), and the part after it is a separate function applied
      when the remote reply (success or failure) arrives.  Timers
      ([setTimeout]) are pending continuations too.  Interleaving is an
      Inductive step relation on a world (live state, hooks' states, pending
      continuations), with one rule per user action, engine event, effect and
      reply.  Effects ([useEffect]) are steps of their own that fire when their
      dependencies changed since their last run.
    - The remote model and [JSON.parse] are external.  In the components a
      reply is a value chosen by the environment ([Interview.reply],
      [Interview.report_reply], the [option] of [QuizMode.generateResumed]),
      so the components' theorems hold for every reply.  The service module
      is modelled against the interface [Gemini.Remote], and its law
      [Gemini.RemoteLaws] states the structured-output contract (a reply to
      a request with a schema parses to a value conforming to it).
    - The browser engines are models of the Web Speech API: the recognition
      engine's phases Idle/Capturing/Stopping (start() throws when not idle,
      an [end] event follows a stop or an error), and the synthesis queue
      whose utterances are queued, speaking, or cancelled and still owing
      their [error] event.

    ** Files, modules and their correspondence with src/

    - [Prelude.v] (this file): the [prep] hint database, the tactic
      [bool_hyps], generic list lemmas (appending one element, weighted sums).
    - [JsString.v]: [trim], [toLowerCase], [includes], [Array.join],
      truthiness of a string, number printing; lemmas on [includes].
    - [Types.v]: the interfaces of [types/index.ts].
    - [FileReader.v], Module [FileReader]: [readFileAsText] (the media-type
      branch, the page loop, the joins), with FileReader and pdf.js given by
      what they deliver.
    - [SpeechRecognition.v], Module [Recognition]: [useSpeechRecognition]
      (state [RecState] = the three cells and [recognitionRef]; [mount],
      [onresult], [onerror], [onend], [cleanup], [startListening],
      [stopListening]; [rec_step] one rule per handler and engine event).
    - [SpeechSynthesis.v], Module [Synthesis]: [useSpeechSynthesis]
      ([SynState] = [isSpeaking] and the engine queue; [speak] with
      [selectVoice], the three utterance events, [cleanup]; [syn_step]).
    - [Gemini.v], Module [Gemini]: [geminiService.ts]: the four requests
      (prompt text written out, schema as a value of [schema]), [call] =
      generateContent, trim and JSON.parse, the typed readings
      ([decode_ats], [decode_questions], [decode_roadmap], [decode_report])
      and how the components read a parsed value ([json_truthy], [prop],
      [renderable]: what React accepts as a child).
    - [Ats.v], Module [Ats]: [AtsScanner.tsx] (five cells, [onDrop],
      [handleScan]/[scanResumed], [renderResult] as a function to an
      [option view] whose [None] is a [TypeError] thrown while rendering;
      [astep] over the controls and replies of an arbitrary remote).
    - [Roadmap.v], Module [RoadmapGen]: [RoadmapGenerator.tsx] in the same
      style ([handleGenerate]/[generateResumed], [renderRoadmap], [rstep]).
    - [Practice.v], Module [Practice]: [PracticeMode.tsx] with the
      recognition hook of [SpeechRecognition.v] as its answer box
      ([getNewQuestion], [submitAnswer] and their continuations, [pstep]
      with the recognizer's events).
    - [Interview.v], Module [Interview]: [InterviewMode.tsx] with both
      hooks.  [Interview] is the component's state, [World] adds the hooks'
      states, the pending continuations and the effects' last dependency
      values.  Each handler of the source is one definition
      ([handleStartInterview]/[startResumed] split at the await of line 96,
      [generateAndSetReport]/[reportResumed] at line 124,
      [handleSendResponse]/[sendResumed] at line 144, [listenEffect],
      [speechErrorEffect], [handleNewInterview], [fileResumed], [micClick]).
      Whether the browser has [speechSynthesis] is the parameter
      [synSupported] of [step]: [speak] checks it, but
      [generateAndSetReport] calls [window.speechSynthesis.cancel()]
      unchecked (line 113), so without it the handler stops there, after
      [setIsLoading(false)] and [stopListening()], its rejection unhandled.
      [step] is the interleaving semantics; its parameter [guard] switches
      on the single-request discipline the spec asks for (user actions only
      when nothing is pending) so that the theorems separate what holds in
      every run from what holds only under that discipline.  [exec]/[run]
      is an executable interpreter proved sound ([exec_sound],
      [run_sound]); scenario theorems are computed by [vm_compute] on it.
    - [ReportView.v], Module [ReportView]: the [finished] case of
      [renderContent] on the raw reply ([renderReport], [renderComp]).
    - [InterviewReact.v], Module [InterviewReact]: the reactions of the
      interview ([react_step]: settled promises, the timer, the effects),
      a sub-relation of [Interview.step].
    - [Quiz.v], Module [QuizMode]: [Quiz.tsx]: the eleven cells, the
      handlers, and [qstep] over the controls the rendered view offers.
    - [App.v], Module [App]: [App.tsx]: the view, the feature list and its
      cast to [View], [renderView], [app_step].

    The components use the service through the interface [Gemini.Remote]
    (a [Section] with [Context `{Remote}] around each step relation); the
    theorems that need the contract take [RemoteLaws] as an instance
    argument, and their witnesses instantiate it with a concrete remote.

    ** Theorems

    - Interview: the closing-phrase path and its stale report transcript
      in a browser with speech synthesis (C1), the invariant "finished has
      a report" in every run (C2), the opening exchange (C3), the
      validation guard of Start (C4), the system instruction (C5), "running
      has a chat" under the discipline (C6), reachable defects without the
      discipline or on failures (C7-C12: concurrent sends, a lost reply, a
      second report, adjacent candidate turns, report failure keeping the
      session, finished while listening), and, without speech synthesis,
      no report ever (C13: line 113 throws in [generateAndSetReport]).
    - Recognition: the listening/capture invariant (C14), the transcript
      built by a sequence of [onresult] events (C15: the events' final
      texts joined by one space, the segments of one event concatenated),
      restart while stopping (C16).  Synthesis: at most one live utterance
      (C17), the voice choice (C18).  Gemini: typed reading of the ATS
      reply under the contract (C19), the ATS branch (C20), the typed
      readings of the other replies (C24).  Quiz: the current question
      exists (C21), the score is bounded (C22), replies are unchecked
      (C23), the quiz can always be finished (C33, liveness, by induction
      on the questions left).  ATS: the stored result conforms (C25), its
      view and the keywords crash (C26).  Roadmap: the view never throws
      under the contract (C27).  Practice: words lost when submitting
      while listening (C28), Submit (C29).  File reader: PDF page order
      (C30).  Report view: a conforming reply renders, each bar ten times
      its competency's score (C34).
    - Interview against the spec's session machine ([session_step]):
      under the discipline every step stutters or follows an edge, except
      entries into [generatingReport] (C31, a refinement proved through the
      invariant [one_pending]); such an entry from [finished] is reachable
      (C32).  The interview's reactions terminate (C35, by the variant
      [InterviewReact.variant] and [Acc]).
    - [App.v] carries no theorem: the shell only routes between the tools.

    ** Bounds and fuel

    No definition uses fuel: every handler is non-recursive, the loops of
    the source ([onresult]'s [for], [find], [map], [join]) are structural
    recursions on lists, the page loop of [readFileAsText] counts down its
    [numPages] iterations ([FileReader.push_pages], proved equal to
    [seq 1 numPages]), and a run of the interpreter is a finite list of
    events.  Reachability statements quantify over all finite runs of the
    step relations; scenario theorems exhibit one run each.  Termination
    of the interview's reactions (C35) is proved without fuel, as [Acc] of
    the reaction relation, by a natural-number variant: the weights of the
    pending continuations (answer 3, timer 2, others 1) plus 4 while the
    listening effect has not seen the flag and 1 for the error effect.

    ** Not modelled

    Replies are modelled as the code types them: a chat reply's [text] is
    a string ([Interview.reply]; the SDK's [undefined] text is not
    modelled), and the report and quiz replies in the components are the
    typed values [generateInterviewReport] and [generateQuiz] return
    ([Interview.report_reply], the list of [QuizMode.generateResumed]);
    [ReportView.v] and [Gemini.v] relate them to the raw JSON under the
    structured-output contract.  JSON numbers are integers ([Z]) and the
    schemas carry no [minimum]/[maximum], as the source's schemas do not;
    the scores are therefore unbounded (a finding, without a theorem).

    [Icons.tsx] and [Spinner.tsx] are presentation only.  The JSX markup is
    modelled as far as it decides which controls are enabled and, for the
    ATS and roadmap results, whether rendering throws.  FileReader, pdf.js,
    the dropzone, scrolling and Markdown rendering are external.  The
    unmounting of a tool when the view changes is not modelled: each
    component is studied from its first render.
*)

From Stdlib Require Import Ascii DecimalString.
From stdpp Require Export base list strings decidable options relations.

Declare Scope prep_scope.
Delimit Scope prep_scope with prep.

(** The development's hint database: generic list and option facts that
    the components' invariant proofs use. *)
Create HintDb prep discriminated.
#[export] Hint Constants Transparent : prep.
Create Rewrite HintDb prep_rw.

(** Split a boolean conjunction or disjunction hypothesis into Props. *)
Ltac bool_hyps :=
  repeat match goal with
  | H : (_ && _)%bool = true |- _ => apply andb_prop in H as [? ?]
  | H : (_ || _)%bool = false |- _ => apply orb_false_elim in H as [? ?]
  | H : negb _ = true |- _ => apply negb_true_iff in H
  | H : negb _ = false |- _ => apply negb_false_iff in H
  end.

(** ** Generic list lemmas *)

Section Lists.
Context {A : Type}.

Lemma snoc_neq_nil (l : list A) (x : A) : l ++ [x] <> [].
Proof. destruct l; discriminate. Qed.

Lemma head_snoc (l : list A) (x y : A) :
  head (l ++ [x]) = Some y -> l = [] /\ x = y \/ head l = Some y.
Proof. destruct l; simpl; intros H; simplify_eq; auto. Qed.

Lemma length_snoc (l : list A) (x : A) : length (l ++ [x]) = S (length l).
Proof. rewrite length_app; simpl; lia. Qed.

(** Removing the element just appended gives the list back. *)
Lemma delete_snoc (l : list A) (x : A) : delete (length l) (l ++ [x]) = l.
Proof. induction l as [|y l IH]; simpl; [done|by rewrite IH]. Qed.

Lemma lookup_snoc_length (l : list A) (x : A) : (l ++ [x]) !! length l = Some x.
Proof. induction l as [|y l IH]; simpl; done. Qed.

(** A weighted sum loses the weight of the element deleted. *)
Lemma sum_list_with_delete (f : A -> nat) (l : list A) i x :
  l !! i = Some x -> sum_list_with f l = f x + sum_list_with f (delete i l).
Proof.
  revert i; induction l as [|y l IH]; intros [|i] Hi; simplify_eq/=; [done|].
  rewrite (IH i Hi). lia.
Qed.
End Lists.

#[export] Hint Resolve snoc_neq_nil : prep.
#[export] Hint Rewrite @length_snoc @delete_snoc @lookup_snoc_length : prep_rw.
