(* ===== verification/JsString.v ===== *)
(** The JavaScript string built-ins the program calls, written out after
    their ECMAScript definitions for strings whose code units are below 256:
    truthiness of a string, [String.prototype.trim], [toLowerCase],
    [includes], [Array.prototype.join] on strings, and the decimal
    rendering of a non-negative integer in a template literal.  These are
    language built-ins, not code of the repository. *)

From Stdlib Require Import Ascii DecimalString.
From S2P Require Import Prelude.

(** [if (s)] / [!s] on a string: only the empty string is falsy. *)
Definition js_truthy (s : string) : bool := negb (String.eqb s "").

(** WhiteSpace and LineTerminator code units below 256 (ECMA-262 12.2,
    12.3): TAB, LF, VT, FF, CR, SPACE, NO-BREAK SPACE. *)
Definition is_js_space (c : ascii) : bool :=
  let n := nat_of_ascii c in
  (Nat.eqb n 9 || Nat.eqb n 10 || Nat.eqb n 11 || Nat.eqb n 12
   || Nat.eqb n 13 || Nat.eqb n 32 || Nat.eqb n 160)%bool.

Fixpoint trim_start (s : string) : string :=
  match s with
  | EmptyString => EmptyString
  | String c s' => if is_js_space c then trim_start s' else s
  end.

Fixpoint trim_end (s : string) : string :=
  match s with
  | EmptyString => EmptyString
  | String c s' =>
      let r := trim_end s' in
      if (String.eqb r "" && is_js_space c)%bool then EmptyString else String c r
  end.

(** [s.trim()] *)
Definition trim (s : string) : string := trim_end (trim_start s).

(** [toLowerCase] on code units below 256: A-Z and the Latin-1 capitals
    U+00C0..U+00DE except U+00D7 move up by 32. *)
Definition to_lower_char (c : ascii) : ascii :=
  let n := nat_of_ascii c in
  if ((65 <=? n) && (n <=? 90)
      || (192 <=? n) && (n <=? 222) && negb (Nat.eqb n 215))%bool
  then ascii_of_nat (n + 32) else c.

Fixpoint toLowerCase (s : string) : string :=
  match s with
  | EmptyString => EmptyString
  | String c s' => String (to_lower_char c) (toLowerCase s')
  end.

(** [s.includes(pat)]: [pat] occurs in [s] at some position. *)
Fixpoint includes (s pat : string) : bool :=
  (String.prefix pat s ||
   match s with
   | EmptyString => false
   | String _ s' => includes s' pat
   end)%bool.

(** [l.join(sep)] *)
Fixpoint join (sep : string) (l : list string) : string :=
  match l with
  | [] => ""
  | [x] => x
  | x :: l' => x +:+ sep +:+ join sep l'
  end.

(** [`${n}`] for a non-negative integer. *)
Definition nat_to_string (n : nat) : string :=
  NilEmpty.string_of_uint (Nat.to_uint n).

(** ** Lemmas *)

Lemma prefix_app (p b : string) : String.prefix p (p +:+ b) = true.
Proof.
  induction p as [|c p IH]; simpl; [by destruct b|].
  by destruct (ascii_dec c c).
Qed.

Lemma includes_empty (s : string) : includes s "" = true.
Proof. destruct s; reflexivity. Qed.

Lemma includes_prefix (s p : string) :
  String.prefix p s = true -> includes s p = true.
Proof. destruct s; simpl; intros ->; done. Qed.

(** A string includes every infix of it. *)
Lemma includes_infix (a p b : string) : includes (a +:+ p +:+ b) p = true.
Proof.
  induction a as [|c a IH].
  - apply includes_prefix. exact (prefix_app p b).
  - simpl. rewrite IH. apply orb_true_r.
Qed.

Lemma includes_app_r (a s p : string) :
  includes s p = true -> includes (a +:+ s) p = true.
Proof.
  intros H. induction a as [|c a IH]; simpl; [done|].
  rewrite IH. apply orb_true_r.
Qed.



Lemma prefix_app_l (p t b : string) :
  String.prefix p t = true -> String.prefix p (t +:+ b) = true.
Proof.
  revert t. induction p as [|d p IH]; intros [|e t] H; simpl in *; try done.
  - by destruct b.
  - destruct (ascii_dec d e); [by apply IH|done].
Qed.

Lemma includes_app_l (s b p : string) :
  includes s p = true -> includes (s +:+ b) p = true.
Proof.
  induction s as [|c s IH]; intros H.
  - destruct p; [apply includes_empty|discriminate].
  - change (includes (String c s) p) with
      (String.prefix p (String c s) || includes s p)%bool in H.
    change (String c s +:+ b) with (String c (s +:+ b)).
    simpl. apply orb_true_iff in H as [H|H]; apply orb_true_iff.
    + left. exact (prefix_app_l p (String c s) b H).
    + right. by apply IH.
Qed.

Lemma js_truthy_false (s : string) : js_truthy s = false <-> s = "".
Proof.
  unfold js_truthy. rewrite negb_false_iff. apply String.eqb_eq.
Qed.

Lemma js_truthy_true (s : string) : js_truthy s = true <-> s <> "".
Proof.
  unfold js_truthy. rewrite negb_true_iff, String.eqb_neq. done.
Qed.

Lemma length_toLowerCase (s : string) :
  String.length (toLowerCase s) = String.length s.
Proof. induction s; simpl; auto. Qed.

Lemma trim_start_idem (s : string) : trim_start (trim_start s) = trim_start s.
Proof.
  induction s as [|c s IH]; simpl; [done|].
  destruct (is_js_space c) eqn:E; [done|]. simpl. by rewrite E.
Qed.

(** [String.append] does not unfold under [simpl] here: its cons equation. *)
Lemma str_app_cons (ch : ascii) (a b : string) :
  String ch a +:+ b = String ch (a +:+ b).
Proof. reflexivity. Qed.

Lemma str_app_assoc (a b c : string) : a +:+ b +:+ c = (a +:+ b) +:+ c.
Proof. induction a as [|ch a IH]; [reflexivity|by rewrite !str_app_cons, IH]. Qed.

Lemma str_app_nil_r (a : string) : a +:+ "" = a.
Proof. induction a as [|ch a IH]; [reflexivity|by rewrite str_app_cons, IH]. Qed.

(** Joining with the empty separator is concatenation. *)
Lemma join_empty_cons (x : string) (l : list string) :
  join "" (x :: l) = x +:+ join "" l.
Proof. destruct l; simpl; [by rewrite str_app_nil_r|done]. Qed.

Lemma includes_refl (p : string) : includes p p = true.
Proof. apply includes_prefix. rewrite <- (str_app_nil_r p) at 2. apply prefix_app. Qed.

(** An infix written as a right-nested concatenation of three pieces. *)
Lemma includes_infix3 (pre x y z post : string) :
  includes (pre +:+ x +:+ y +:+ z +:+ post) (x +:+ y +:+ z) = true.
Proof.
  rewrite (str_app_assoc y z post), (str_app_assoc x (y +:+ z) post).
  apply includes_app_r, includes_app_l, includes_refl.
Qed.

(** An element of a joined list is included in the join. *)
Lemma includes_join (sep x y : string) (l : list string) :
  In y l -> includes y x = true -> includes (join sep l) x = true.
Proof.
  induction l as [|z l IH]; intros Hin Hx; [destruct Hin|].
  destruct l as [|z' l].
  - destruct Hin as [->|[]]. exact Hx.
  - change (join sep (z :: z' :: l)) with (z +:+ sep +:+ join sep (z' :: l)).
    destruct Hin as [->|Hin].
    + by apply includes_app_l.
    + apply includes_app_r, includes_app_r. by apply IH.
Qed.

(** ** [trim] on strings already trimmed *)

Lemma length_trim_start (s : string) : String.length (trim_start s) <= String.length s.
Proof. induction s as [|c s IH]; simpl; [lia|]. destruct (is_js_space c); simpl; lia. Qed.

Lemma length_trim_end (s : string) : String.length (trim_end s) <= String.length s.
Proof.
  induction s as [|c s IH]; simpl; [lia|].
  destruct (String.eqb (trim_end s) "" && is_js_space c)%bool; simpl; lia.
Qed.

(** The whitespace removed at the end lies in the last piece. *)
Lemma trim_end_app_r (a b : string) :
  trim_end b <> "" -> trim_end (a +:+ b) = a +:+ trim_end b.
Proof.
  intros Hb. induction a as [|c a IH]; [done|]. rewrite str_app_cons. cbn [trim_end].
  rewrite IH. destruct a; cbn; [destruct (trim_end b) eqn:E; [done|]|]; done.
Qed.

(** A string [trim] leaves alone starts with a non-space and is its own
    [trim_end]. *)
Lemma trim_fixed_head (c : ascii) (s : string) :
  trim (String c s) = String c s -> is_js_space c = false.
Proof.
  unfold trim. cbn [trim_start]. destruct (is_js_space c); [|done]. intros H.
  pose proof (f_equal String.length H). cbn in *.
  pose proof (length_trim_end (trim_start s)). pose proof (length_trim_start s). lia.
Qed.

Lemma trim_fixed_end (s : string) : trim s = s -> trim_end s = s.
Proof.
  destruct s as [|c s]; [done|]. intros H. pose proof (trim_fixed_head _ _ H) as Hc.
  unfold trim in H. cbn [trim_start] in H. by rewrite Hc in H.
Qed.

(** [`${a} ${b}`.trim()] of two non-empty trimmed strings adds nothing
    and removes nothing. *)
Lemma trim_space_join (a b : string) :
  trim a = a -> trim b = b -> a <> "" -> b <> "" -> trim (a +:+ " " +:+ b) = a +:+ " " +:+ b.
Proof.
  intros Ha Hb Ha0 Hb0. destruct a as [|c a]; [done|].
  pose proof (trim_fixed_head _ _ Ha) as Hc. apply trim_fixed_end in Hb.
  assert (Hsp : trim_end (" " +:+ b) = " " +:+ b).
  { change (" " +:+ b) with (String " " b). cbn [trim_end]. rewrite Hb. by destruct b. }
  unfold trim. rewrite str_app_cons. cbn [trim_start]. rewrite Hc, <- str_app_cons.
  rewrite trim_end_app_r, Hsp; [done|]. by rewrite Hsp.
Qed.

(** ** [join] *)

Lemma join_snoc (sep x : string) (l : list string) :
  join sep (l ++ [x]) = match l with [] => x | _ => join sep l +:+ sep +:+ x end.
Proof.
  induction l as [|y l IH]; [done|]. destruct l as [|z l]; [done|].
  cbn [app] in *.
  change (join sep (y :: z :: l ++ [x])) with (y +:+ sep +:+ join sep (z :: l ++ [x])).
  rewrite IH. change (join sep (y :: z :: l)) with (y +:+ sep +:+ join sep (z :: l)).
  by rewrite <- !str_app_assoc.
Qed.

Lemma join_nonempty (sep : string) (l : list string) :
  Forall (fun s => s <> "") l -> l <> [] -> join sep l <> "".
Proof.
  intros Hl Hne. destruct Hl as [|x l Hx _]; [done|].
  destruct x as [|c x]; [done|]. destruct l; simpl; done.
Qed.

#[export] Hint Rewrite str_app_cons str_app_nil_r join_empty_cons : prep_rw.

#[export] Hint Resolve includes_empty includes_infix prefix_app : prep.
