(* ===== verification/Types.v ===== *)
(** The data model of [src/types/index.ts]: one Record per interface, the
    string-literal union of [InterviewTurn.speaker] as an Inductive, optional
    fields ([?:]) as [option].  A JS [number] field is a [Z]. *)

From Stdlib Require Import ZArith.
From S2P Require Import Prelude.

(** [interface QuizQuestion] *)
Record QuizQuestion := mkQuizQuestion {
  question : string;
  options : list string;
  answer : string;
  explanation : string;
}.

(** [interface RoadmapStep] *)
Record RoadmapStep := mkRoadmapStep {
  step : Z;
  step_title : string;
  description : string;
  resources : list string;
}.

(** [interface Roadmap] *)
Record Roadmap := mkRoadmap {
  roadmap_title : string;
  steps : list RoadmapStep;
}.

(** The [keywords] field of [AtsScanResult]. *)
Record AtsKeywords := mkAtsKeywords {
  missing : list string;
  found : list string;
}.

(** [interface AtsScanResult] *)
Record AtsScanResult := mkAtsScanResult {
  score : option Z;
  matchRate : option string;
  keywords : option AtsKeywords;
  ats_summary : string;
  suggestions : string;
  strengths_text : option string;
  weaknesses : option string;
}.

(** [InterviewTurn.speaker : 'interviewer' | 'candidate'] *)
Inductive Speaker := interviewer | candidate.

#[export] Instance Speaker_eq_dec : EqDecision Speaker.
Proof. solve_decision. Defined.

(** [interface InterviewTurn] *)
Record InterviewTurn := mkTurn {
  speaker : Speaker;
  text : string;
}.

#[export] Instance InterviewTurn_eq_dec : EqDecision InterviewTurn.
Proof. solve_decision. Defined.

(** An element of [InterviewReport.competencies]. *)
Record Competency := mkCompetency {
  comp_name : string;
  comp_score : Z;
  feedback : string;
}.

(** [interface InterviewReport] *)
Record InterviewReport := mkInterviewReport {
  overallScore : Z;
  report_summary : string;
  competencies : list Competency;
  strengths : list string;
  areasForImprovement : list string;
  recommendation : string;
}.

(** The text rendering of [speaker] in a template literal. *)
Definition speaker_str (s : Speaker) : string :=
  match s with
  | interviewer => "interviewer"
  | candidate => "candidate"
  end.
