(* ===== verification/FileReader.v ===== *)
(** The document reader [src/utils/fileReader.ts].

    A file is its declared media type with what the browser gives for it:
    the text [FileReader.readAsText] produces, and the document pdf.js
    decodes from [readAsArrayBuffer] ([None]: the read or the decoding
    rejects).  A decoded document is its page count and, per page number,
    the [str] of its text items ([None]: loading that page rejects).  The
    promise [readFileAsText] returns is an [option string]. *)

From S2P Require Import Prelude JsString.

Module FileReader.

Record PdfDoc := mkPdf {
  numPages : nat;
  getPage : nat -> option (list string);
}.

Record File := mkFile {
  file_type : string;
  as_text : option string;
  as_pdf : option PdfDoc;
}.

(** [for (let i = 1; i <= pdf.numPages; i++) { pages.push(i); }] with the
    loop counter [i], the array [acc], and the iterations left [k]. *)
Fixpoint push_pages (k i : nat) (acc : list nat) : list nat :=
  match k with
  | 0 => acc
  | S k' => push_pages k' (S i) (acc ++ [i])
  end.

Definition blank_line : string := String (Ascii.ascii_of_nat 10) (String (Ascii.ascii_of_nat 10) EmptyString).

(** [readFileAsText] (lines 4-38): a PDF is read page by page
    ([Promise.all] keeps the order of [pages]), the items of a page joined
    with a space and the pages with a blank line; any other type is read
    as text. *)
Definition readFileAsText (f : File) : option string :=
  if String.eqb (file_type f) "application/pdf" then
    d ← as_pdf f;
    texts ← mapM (fun n => join " " <$> getPage d n) (push_pages (numPages d) 1 []);
    Some (join blank_line texts)
  else as_text f.

(** ** Lemmas *)

Lemma push_pages_seq k i acc : push_pages k i acc = acc ++ seq i k.
Proof.
  revert i acc; induction k as [|k IH]; intros i acc; simpl.
  - by rewrite app_nil_r.
  - by rewrite IH, <- app_assoc.
Qed.

(** ** Theorems *)

(** C30: a PDF whose pages all load reads as the text of pages 1 to
    [numPages] in page order, items joined by a space and pages by a blank
    line. *)
Theorem pdf_pages_in_order f d :
  file_type f = "application/pdf" -> as_pdf f = Some d ->
  (forall n, 1 <= n <= numPages d -> is_Some (getPage d n)) ->
  exists pages, mapM (getPage d) (seq 1 (numPages d)) = Some pages /\
    readFileAsText f = Some (join blank_line (map (join " ") pages)).
Proof.
  intros Ht Hd Hall. destruct (mapM_is_Some_2 (getPage d) (seq 1 (numPages d))) as [pages Hp].
  { apply Forall_forall. intros n Hn%elem_of_seq. apply Hall. lia. }
  exists pages. split; [done|].
  unfold readFileAsText. rewrite Ht, Hd. cbn. rewrite push_pages_seq. cbn.
  assert (mapM (fun n => join " " <$> getPage d n) (seq 1 (numPages d)) =
          Some (map (join " ") pages)) as ->; [|done].
  apply mapM_Some_2. apply mapM_Some_1 in Hp.
  induction Hp; constructor; [|done]. by match goal with H : getPage d _ = _ |- _ => rewrite H end.
Qed.

Definition two_pages : PdfDoc :=
  mkPdf 2 (fun n => match n with 1 => Some ["Jane"; "Doe"] | 2 => Some ["Rust"] | _ => None end).

Lemma pdf_pages_in_order_witness :
  exists pages, mapM (getPage two_pages) (seq 1 2) = Some pages /\
    readFileAsText (mkFile "application/pdf" None (Some two_pages)) =
    Some (join blank_line (map (join " ") pages)).
Proof.
  apply (pdf_pages_in_order (mkFile "application/pdf" None (Some two_pages)) two_pages);
    [reflexivity|reflexivity|].
  intros n Hn. simpl in Hn. destruct n as [|[|[|n]]]; simpl; try (by eexists); lia.
Defined.

End FileReader.
