(* ===== verification/SpeechRecognition.v ===== *)
(** The speech-to-text hook [src/hooks/useSpeechRecognition.ts].

    State: the hook's three [useState] cells and [recognitionRef]; the
    browser [SpeechRecognition] object is an [Engine] record with its
    configuration, its capture phase and whether its [onend] handler is still
    attached.  The engine follows the Web Speech API: [start()] on an engine
    that is capturing or still stopping throws [InvalidStateError];
    [stop()] on an idle engine does nothing; an [end] event follows a stop, an
    error or a silence timeout.

    Every handler reads [isListening] from the render that created it; that
    closure value is an explicit argument ([seen]) so that the theorems also
    cover stale closures. *)

From S2P Require Import Prelude JsString.

Module Recognition.

(** Capture phase of the browser engine. *)
Inductive phase := Idle | Capturing | Stopping.

#[export] Instance phase_eq_dec : EqDecision phase.
Proof. solve_decision. Defined.

(** The [SpeechRecognition] object held in [recognitionRef.current]. *)
Record Engine := mkEngine {
  continuous : bool;
  interimResults : bool;
  lang : string;
  eng_phase : phase;
  onend_attached : bool;
}.

(** The hook's state. *)
Record RecState := mkRecState {
  isListening : bool;
  transcript : string;
  error : option string;
  recognitionRef : option Engine;
}.

Definition unsupported_msg : string :=
  "Speech recognition is not supported in this browser.".

(** The state of the first render, before the mount effect ran. *)
Definition initial : RecState := mkRecState false "" None None.

(** The mount effect ([useEffect(..., [isSupported])]). *)
Definition mount (isSupported : bool) (st : RecState) : RecState :=
  if negb isSupported then
    mkRecState (isListening st) (transcript st) (Some unsupported_msg)
      (recognitionRef st)
  else
    mkRecState (isListening st) (transcript st) (error st)
      (Some (mkEngine true true "en-US" Idle true)).

Definition set_phase (e : Engine) (p : phase) : Engine :=
  mkEngine (continuous e) (interimResults e) (lang e) p (onend_attached e).

(** [recognition.start()]: [None] is the [InvalidStateError] it throws
    when the engine is not idle. *)
Definition engine_start (e : Engine) : option Engine :=
  match eng_phase e with
  | Idle => Some (set_phase e Capturing)
  | _ => None
  end.

(** [recognition.stop()] *)
Definition engine_stop (e : Engine) : Engine :=
  match eng_phase e with
  | Capturing => set_phase e Stopping
  | _ => e
  end.

(** [startListening], from a render that saw [seen] as [isListening].
    [setTranscript('')] and [setError(null)] are queued before
    [start()]; when [start()] throws, [setIsListening(true)] is not
    reached. *)
Definition startListening (seen : bool) (st : RecState) : RecState :=
  match recognitionRef st with
  | Some e =>
      if negb seen then
        match engine_start e with
        | Some e' => mkRecState true "" None (Some e')
        | None => mkRecState (isListening st) "" None (Some e)
        end
      else st
  | None => st
  end.

(** [stopListening] *)
Definition stopListening (seen : bool) (st : RecState) : RecState :=
  match recognitionRef st with
  | Some e =>
      if seen then mkRecState false (transcript st) (error st) (Some (engine_stop e))
      else st
  | None => st
  end.

(** [setTranscript(v)] as exposed to the component. *)
Definition setTranscript (v : string) (st : RecState) : RecState :=
  mkRecState (isListening st) v (error st) (recognitionRef st).

(** A [SpeechRecognitionResult]: whether it is final, and the transcript
    of its first alternative. *)
Record SpeechResult := mkResult { isFinal : bool; alt0 : string }.

(** The loop of [onresult]: the concatenation of the final results from
    [resultIndex] on. *)
Definition final_transcript (resultIndex : nat) (results : list SpeechResult)
  : string :=
  foldl (fun acc r => if isFinal r then acc +:+ alt0 r else acc) ""
    (drop resultIndex results).

(** The functional update passed to [setTranscript] in [onresult]. *)
Definition append_final (prev fin : string) : string :=
  if js_truthy prev then trim (prev +:+ " " +:+ fin) else trim fin.

(** [recognition.onresult] *)
Definition onresult (resultIndex : nat) (results : list SpeechResult)
  (st : RecState) : RecState :=
  let fin := final_transcript resultIndex results in
  if js_truthy fin then
    mkRecState (isListening st) (append_final (transcript st) fin) (error st)
      (recognitionRef st)
  else st.

(** [recognition.onerror]: the engine stops capturing and will end. *)
Definition onerror (err : string) (st : RecState) : RecState :=
  mkRecState false (transcript st) (Some err)
    (option_map (fun e => engine_stop e) (recognitionRef st)).

(** The engine's [end] event: the engine becomes idle, and the attached
    [onend] handler sets [isListening] to false. *)
Definition onend (st : RecState) : RecState :=
  match recognitionRef st with
  | Some e =>
      let e' := set_phase e Idle in
      if onend_attached e then mkRecState false (transcript st) (error st) (Some e')
      else mkRecState (isListening st) (transcript st) (error st) (Some e')
  | None => st
  end.

(** The effect's cleanup on unmount: detach [onend], then stop. *)
Definition cleanup (st : RecState) : RecState :=
  match recognitionRef st with
  | Some e =>
      mkRecState (isListening st) (transcript st) (error st)
        (Some (engine_stop (mkEngine (continuous e) (interimResults e) (lang e)
                               (eng_phase e) false)))
  | None => st
  end.


(** ** The hook as a transition system

    One rule per handler the component can call (with any closure value)
    and per engine event.  The engine delivers results, errors and [end]
    only while it is not idle. *)
Inductive rec_step : RecState -> RecState -> Prop :=
| RS_start seen st : rec_step st (startListening seen st)
| RS_stop seen st : rec_step st (stopListening seen st)
| RS_set v st : rec_step st (setTranscript v st)
| RS_result i rs st e :
    recognitionRef st = Some e -> eng_phase e <> Idle ->
    rec_step st (onresult i rs st)
| RS_error err st e :
    recognitionRef st = Some e -> eng_phase e <> Idle ->
    rec_step st (onerror err st)
| RS_end st e :
    recognitionRef st = Some e -> eng_phase e <> Idle ->
    rec_step st (onend st)
| RS_cleanup st : rec_step st (cleanup st).

(** The state after the mount effect. *)
Definition mounted (isSupported : bool) : RecState := mount isSupported initial.

(** The hook's invariant: while the [onend] handler is attached, the
    [isListening] flag is set exactly when the engine is capturing, and
    without an engine the flag is clear. *)
Definition rec_inv (st : RecState) : Prop :=
  match recognitionRef st with
  | Some e => onend_attached e = true ->
              (isListening st = true <-> eng_phase e = Capturing)
  | None => isListening st = false
  end.

(** Case analysis on a hook state, its engine and every conditional of a
    handler. *)
Ltac rec_cases st :=
  destruct st as [? ? ? [[? ? ? [] []]|]]; simpl in *;
  repeat case_match; simplify_eq/=; try done.

Lemma rec_inv_mounted b : rec_inv (mounted b).
Proof. by destruct b. Qed.

Lemma rec_inv_step st st' : rec_inv st -> rec_step st st' -> rec_inv st'.
Proof.
  unfold rec_inv; intros Hinv Hs; destruct Hs;
    unfold startListening, stopListening, setTranscript, onresult, onerror,
      onend, cleanup, engine_start, engine_stop, set_phase in *;
    rec_cases st; naive_solver.
Qed.

(** The reference reading of the [onresult] loop: the final results from
    [resultIndex] on, joined. *)
Definition final_transcript_ref (resultIndex : nat)
  (results : list SpeechResult) : string :=
  join "" (map alt0 (List.filter isFinal (drop resultIndex results))).

Lemma foldl_final (a : string) (l : list SpeechResult) :
  foldl (fun acc r => if isFinal r then acc +:+ alt0 r else acc) a l =
  a +:+ join "" (map alt0 (List.filter isFinal l)).
Proof.
  revert a; induction l as [|r l IH]; intros a; cbn [foldl List.filter].
  - by rewrite str_app_nil_r.
  - rewrite IH. destruct (isFinal r); cbn [map]; [|done].
    by rewrite join_empty_cons, str_app_assoc.
Qed.

(** The [for] loop of [onresult] reads the final segments from
    [resultIndex] on, concatenated. *)
Lemma final_transcript_eq i rs : final_transcript i rs = final_transcript_ref i rs.
Proof. unfold final_transcript, final_transcript_ref. by rewrite foldl_final. Qed.

Lemma rec_inv_rtc st st' : rtc rec_step st st' -> rec_inv st -> rec_inv st'.
Proof. induction 1; eauto using rec_inv_step. Qed.

(** ** Theorems *)

(** C14: every state the hook reaches from its mount satisfies the
    invariant: with [onend] attached, [isListening] holds exactly while
    the engine captures. *)
Theorem rec_reachable_inv (b : bool) (st : RecState) :
  rtc rec_step (mounted b) st -> rec_inv st.
Proof. intros H. eapply rec_inv_rtc; [exact H|apply rec_inv_mounted]. Qed.

Lemma rec_reachable_inv_witness :
  rec_inv (onend (stopListening true (startListening false (mounted true)))).
Proof.
  apply (rec_reachable_inv true).
  eapply rtc_l; [apply (RS_start false)|].
  eapply rtc_l; [apply (RS_stop true)|].
  eapply rtc_l; [eapply (RS_end _ (set_phase (mkEngine true true "en-US" Idle true) Stopping)); done|].
  apply rtc_refl.
Defined.

(** C15: over any sequence of [onresult] events, from a transcript
    without surrounding whitespace and with each event's final segments
    forming such a text, the transcript is exactly the texts of the events
    that carry a final segment, in order, separated by one space: the
    segments of one event are concatenated without a separator, interim
    segments and segments before [resultIndex] never enter it, nothing is
    lost to [trim], and the listening flag, the error and the engine are
    untouched. *)
Theorem onresult_accumulates (evs : list (nat * list SpeechResult)) (st : RecState) :
  trim (transcript st) = transcript st ->
  Forall (fun e => trim (final_transcript_ref e.1 e.2) = final_transcript_ref e.1 e.2) evs ->
  let st' := foldl (fun s e => onresult e.1 e.2 s) st evs in
  transcript st' = join " " (List.filter js_truthy
                     (transcript st :: map (fun e => final_transcript_ref e.1 e.2) evs)) /\
  trim (transcript st') = transcript st' /\
  isListening st' = isListening st /\ error st' = error st /\
  recognitionRef st' = recognitionRef st.
Proof.
  intros Ht0 Hevs. induction evs as [|[i rs] evs IH] using rev_ind; cbn zeta.
  - cbn. destruct (js_truthy (transcript st)) eqn:E; [done|].
    apply js_truthy_false in E. by rewrite E.
  - apply Forall_app in Hevs as [Hevs Hlast%Forall_inv]. cbn [fst snd] in Hlast.
    destruct (IH Hevs) as (Ht & Htr & Hl & He & Hr). clear IH.
    rewrite foldl_app, map_app, app_comm_cons, List.filter_app.
    remember (foldl _ st evs) as T eqn:ET. clear ET.
    remember (List.filter js_truthy (transcript st :: _)) as L eqn:EL.
    assert (HL : Forall (fun y => y <> "") L).
    { subst L. apply Forall_forall. intros y [_ Hy]%list_elem_of_In%List.filter_In. by apply js_truthy_true. }
    clear EL. cbn [foldl fst snd map List.filter]. unfold onresult. rewrite final_transcript_eq.
    destruct (js_truthy (final_transcript_ref i rs)) eqn:Ef; [|by rewrite app_nil_r].
    apply js_truthy_true in Ef. cbn [transcript isListening error recognitionRef].
    rewrite join_snoc. unfold append_final. rewrite Ht. destruct L as [|x l].
    + cbn. by rewrite Hlast.
    + assert (Hne : join " " (x :: l) <> "") by (apply join_nonempty; done).
      rewrite Ht in Htr. apply js_truthy_true in Hne as Hne'. rewrite Hne'.
      rewrite !trim_space_join by done. done.
Qed.

Lemma onresult_accumulates_witness :
  let evs := [(0, [mkResult true "hello"; mkResult false "wor"]);
              (1, [mkResult true "ignored"; mkResult false "how"]);
              (0, [mkResult true "how"; mkResult true "dy"])] in
  let st' := foldl (fun s e => onresult e.1 e.2 s) (mounted true) evs in
  transcript st' = "hello howdy" /\
  (transcript st' = join " " (List.filter js_truthy
                     (transcript (mounted true) :: map (fun e => final_transcript_ref e.1 e.2) evs)) /\
   trim (transcript st') = transcript st' /\
   isListening st' = isListening (mounted true) /\ error st' = error (mounted true) /\
   recognitionRef st' = recognitionRef (mounted true)).
Proof.
  intros evs st'. split; [vm_compute; reflexivity|].
  apply (onresult_accumulates evs (mounted true)); [vm_compute; reflexivity|].
  repeat constructor.
Defined.

(** C16: pressing the microphone again right after stopping, before the
    engine's [end] event, does not restart capture: [start()] throws
    [InvalidStateError] on the stopping engine, [isListening] stays false,
    and the transcript spoken so far has been erased by the queued
    [setTranscript('')]. *)
Theorem restart_while_stopping :
  exists st : RecState,
    rtc rec_step (mounted true) st /\
    isListening st = false /\ transcript st = "hello" /\
    isListening (startListening (isListening st) st) = false /\
    transcript (startListening (isListening st) st) = "".
Proof.
  set (s1 := startListening false (mounted true)).
  set (s2 := onresult 0 [mkResult true "hello"] s1).
  exists (stopListening true s2).
  split_and!; try reflexivity.
  eapply rtc_l; [apply (RS_start false)|].
  eapply rtc_l; [eapply (RS_result 0 _ _ (set_phase (mkEngine true true "en-US" Idle true) Capturing)); done|].
  eapply rtc_l; [apply (RS_stop true)|]. apply rtc_refl.
Qed.

End Recognition.
