(* ===== verification/SpeechSynthesis.v ===== *)
(** The text-to-speech hook [src/hooks/useSpeechSynthesis.ts].

    State: the hook's [isSpeaking] cell, and the browser's
    [window.speechSynthesis] queue, each utterance with its status: queued,
    being spoken, or cancelled and still owing the [error] event that the Web
    Speech API fires for a cancelled utterance.  [speak] reads [isSpeaking]
    from the render that created it: the closure value is the argument
    [seen]. *)

From S2P Require Import Prelude JsString.

Module Synthesis.

(** A [SpeechSynthesisVoice]: its [name] and [lang]. *)
Record Voice := mkVoice { voice_name : string; voice_lang : string }.

(** A [SpeechSynthesisUtterance] as [speak] configures it. *)
Record Utterance := mkUtterance {
  utext : string;
  uvoice : option Voice;
  pitch : nat;
  rate : nat;
  volume : nat;
}.

Inductive ustatus := Queued | Speaking | Dying.

#[export] Instance ustatus_eq_dec : EqDecision ustatus.
Proof. solve_decision. Defined.

Record SynState := mkSynState {
  isSpeaking : bool;
  engine : list (Utterance * ustatus);
}.

Definition initial : SynState := mkSynState false [].

(** The voice choice of [speak]: an English voice whose name contains
    "Google", else an [en-US] voice, else the first voice. *)
Definition selectVoice (voices : list Voice) : option Voice :=
  match List.find (fun v => includes (voice_name v) "Google" &&
                            String.prefix "en" (voice_lang v))%bool voices with
  | Some v => Some v
  | None =>
      match List.find (fun v => String.prefix "en-US" (voice_lang v)) voices with
      | Some v => Some v
      | None => head voices
      end
  end.

(** [window.speechSynthesis.cancel()]: every utterance is dropped; each
    one still delivers its [error] event. *)
Definition cancel (eng : list (Utterance * ustatus)) : list (Utterance * ustatus) :=
  map (fun p => (p.1, Dying)) eng.

(** [speak(text)] from a render that saw [seen] as [isSpeaking]. *)
Definition speak (isSupported seen : bool) (voices : list Voice) (txt : string)
  (st : SynState) : SynState :=
  if (negb isSupported || seen)%bool then st
  else
    let u := mkUtterance txt (selectVoice voices) 1 1 1 in
    mkSynState (isSpeaking st) (cancel (engine st) ++ [(u, Queued)]).

(** The effect cleanup on unmount. *)
Definition cleanup (isSupported : bool) (st : SynState) : SynState :=
  if isSupported then mkSynState (isSpeaking st) (cancel (engine st)) else st.

(** Engine events.  [utter_start]: the first live utterance starts when
    none is being spoken ([onstart] sets [isSpeaking]). *)
Fixpoint start_first (eng : list (Utterance * ustatus))
  : option (list (Utterance * ustatus)) :=
  match eng with
  | [] => None
  | (u, Dying) :: eng' => (fun e => (u, Dying) :: e) <$> start_first eng'
  | (u, Queued) :: eng' => Some ((u, Speaking) :: eng')
  | (u, Speaking) :: _ => None
  end.

Definition utter_start (st : SynState) : option SynState :=
  (fun e => mkSynState true e) <$> start_first (engine st).

(** [utter_end]: the utterance being spoken ends ([onend] clears
    [isSpeaking]). *)
Fixpoint end_speaking (eng : list (Utterance * ustatus))
  : option (list (Utterance * ustatus)) :=
  match eng with
  | [] => None
  | (u, Speaking) :: eng' => Some eng'
  | p :: eng' => (fun e => p :: e) <$> end_speaking eng'
  end.

Definition utter_end (st : SynState) : option SynState :=
  (fun e => mkSynState false e) <$> end_speaking (engine st).

(** [utter_error]: the first cancelled utterance reports its error
    ([onerror] clears [isSpeaking]). *)
Fixpoint drop_dying (eng : list (Utterance * ustatus))
  : option (list (Utterance * ustatus)) :=
  match eng with
  | [] => None
  | (u, Dying) :: eng' => Some eng'
  | p :: eng' => (fun e => p :: e) <$> drop_dying eng'
  end.

Definition utter_error (st : SynState) : option SynState :=
  (fun e => mkSynState false e) <$> drop_dying (engine st).

(** ** The hook and engine as a transition system *)

Inductive syn_step : SynState -> SynState -> Prop :=
| SS_speak sup seen vs txt st : syn_step st (speak sup seen vs txt st)
| SS_cancel st : syn_step st (mkSynState (isSpeaking st) (cancel (engine st)))
| SS_cleanup sup st : syn_step st (cleanup sup st)
| SS_start st st' : utter_start st = Some st' -> syn_step st st'
| SS_end st st' : utter_end st = Some st' -> syn_step st st'
| SS_error st st' : utter_error st = Some st' -> syn_step st st'.

(** Utterances the engine will still speak or is speaking. *)
Definition live_count (eng : list (Utterance * ustatus)) : nat :=
  length (List.filter (fun p => negb (bool_decide (p.2 = Dying))) eng).

Lemma live_count_cancel eng : live_count (cancel eng) = 0.
Proof. induction eng; simpl; auto. Qed.

Lemma live_count_app e1 e2 : live_count (e1 ++ e2) = live_count e1 + live_count e2.
Proof. unfold live_count. by rewrite List.filter_app, length_app. Qed.

Lemma live_count_cons p e :
  live_count (p :: e) = (if bool_decide (p.2 = Dying) then 0 else 1) + live_count e.
Proof. unfold live_count; simpl. by case_bool_decide. Qed.

Lemma live_count_queued u : live_count [(u, Queued)] = 1.
Proof. reflexivity. Qed.

Lemma start_first_live e e' : start_first e = Some e' -> live_count e' = live_count e.
Proof.
  revert e'; induction e as [|[u []] e IH]; intros e' H; simpl in H; simplify_eq;
    try done.
  destruct (start_first e) eqn:E; simplify_eq/=.
  rewrite !live_count_cons. simpl. by rewrite IH.
Qed.

Lemma end_speaking_live e e' : end_speaking e = Some e' -> live_count e' <= live_count e.
Proof.
  revert e'; induction e as [|[u []] e IH]; intros e' H; simpl in H; simplify_eq;
    rewrite ?live_count_cons; simpl; try lia;
    destruct (end_speaking e) eqn:E; simplify_eq/=;
    rewrite live_count_cons; simpl; specialize (IH _ eq_refl); lia.
Qed.

Lemma drop_dying_live e e' : drop_dying e = Some e' -> live_count e' = live_count e.
Proof.
  revert e'; induction e as [|[u []] e IH]; intros e' H; simpl in H; simplify_eq;
    rewrite ?live_count_cons; simpl; try done;
    destruct (drop_dying e) eqn:E; simplify_eq/=;
    rewrite live_count_cons; simpl; by rewrite (IH _ eq_refl).
Qed.

Lemma syn_step_live st st' :
  live_count (engine st) <= 1 -> syn_step st st' -> live_count (engine st') <= 1.
Proof.
  intros Hl Hs; destruct Hs as [sup seen vs txt st|st|sup st|st st' H|st st' H|st st' H].
  - unfold speak. destruct sup, seen; cbn [engine negb orb]; try done.
    rewrite live_count_app, live_count_cancel, live_count_queued. lia.
  - cbn [engine]. rewrite live_count_cancel; lia.
  - unfold cleanup. destruct sup; cbn [engine]; [rewrite live_count_cancel; lia|done].
  - unfold utter_start in H. destruct (start_first _) eqn:E; simplify_eq/=.
    by rewrite (start_first_live _ _ E).
  - unfold utter_end in H. destruct (end_speaking _) eqn:E; simplify_eq/=.
    pose proof (end_speaking_live _ _ E). lia.
  - unfold utter_error in H. destruct (drop_dying _) eqn:E; simplify_eq/=.
    by rewrite (drop_dying_live _ _ E).
Qed.

(** ** Theorems *)

(** C17: the engine never holds two utterances that it will speak: every
    [speak] cancels what is queued or playing before it enqueues, so in
    every reachable state at most one utterance is live. *)
Theorem one_live_utterance (st : SynState) :
  rtc syn_step initial st -> live_count (engine st) <= 1.
Proof.
  intros H. remember initial as s0 eqn:E.
  assert (live_count (engine s0) <= 1) as H0 by (subst; cbv; lia).
  clear E. induction H; eauto using syn_step_live.
Qed.

Lemma one_live_utterance_witness :
  live_count (engine (speak true false [] "Next question." (speak true false [] "Hello." initial))) <= 1.
Proof.
  apply one_live_utterance.
  eapply rtc_l; [apply (SS_speak true false [] "Hello.")|].
  eapply rtc_l; [apply (SS_speak true false [] "Next question.")|].
  apply rtc_refl.
Defined.

(** C18: the voice choice picks a voice of the list, and picks one
    whenever the list is not empty. *)
Theorem selectVoice_spec (voices : list Voice) :
  (forall v, selectVoice voices = Some v -> In v voices) /\
  (selectVoice voices = None <-> voices = []).
Proof.
  unfold selectVoice. split.
  - intros v Hv. repeat case_match; simplify_eq;
      try (eapply List.find_some; eassumption).
    destruct voices; simpl in *; simplify_eq. by left.
  - split; [|intros ->; done].
    repeat case_match; try discriminate. destruct voices; done.
Qed.

End Synthesis.
