(* ===== verification/Gemini.v ===== *)
(** The service module [src/services/geminiService.ts].

    Each of the four functions builds a request (model, prompt, response
    MIME type and response schema), sends it, trims the reply text and
    [JSON.parse]s it.  The requests are data here: the prompts are the
    template literals written out line by line, the schemas are values of
    [schema].  The remote model and [JSON.parse] form the interface
    [Remote]; [RemoteLaws] is the structured-output contract (a reply to a
    request with a schema parses to a value conforming to it), under which
    the typed reading the components make of a reply is proved sound. *)

From Stdlib Require Import ZArith Ascii.
From S2P Require Import Prelude JsString Types.

#[local] Set Warnings "-register-all".

Module Gemini.

(** A parsed JSON value; an object keeps its keys in order. *)
Inductive json :=
| JNull | JBool (b : bool) | JNum (n : Z) | JStr (s : string)
| JArr (xs : list json) | JObj (kvs : list (string * json)).

(** A response schema built from [Type.OBJECT], [Type.ARRAY],
    [Type.STRING] and [Type.NUMBER], with the optional [description]. *)
Inductive schema :=
| SString (desc : option string)
| SNumber (desc : option string)
| SArray (desc : option string) (items : schema)
| SObject (desc : option string) (props : list (string * schema)) (required : list string).

Fixpoint lookup_key {A} (k : string) (l : list (string * A)) : option A :=
  match l with
  | [] => None
  | (k', v) :: l' => if String.eqb k k' then Some v else lookup_key k l'
  end.

(** Conformance of a value to a schema: the right kind, every array item
    conforms, every required key present, every key declared and its value
    conforming. *)
Fixpoint conforms (j : json) (s : schema) {struct j} : bool :=
  match j, s with
  | JStr _, SString _ => true
  | JNum _, SNumber _ => true
  | JArr xs, SArray _ it => forallb (fun x => conforms x it) xs
  | JObj kvs, SObject _ props req =>
      forallb (fun k => match lookup_key k kvs with Some _ => true | None => false end) req &&
      forallb (fun kv => match lookup_key kv.1 props with
                         | Some s' => conforms kv.2 s'
                         | None => false
                         end) kvs
  | _, _ => false
  end.

(** A call of [ai.models.generateContent]. *)
Record Request := mkRequest {
  req_model : string;
  contents : string;
  responseMimeType : option string;
  responseSchema : option schema;
}.

(** [const model = 'gemini-2.5-flash'] *)
Definition model : string := "gemini-2.5-flash".

Definition nl : string := String (ascii_of_nat 10) EmptyString.
Definition dq : string := String (ascii_of_nat 34) EmptyString.
Definition sp8 : string := "        ".

(** A multi-line template literal, one string per source line. *)
Definition lines (ls : list string) : string := join nl ls.

Definition str := SString None.
Definition strd (d : string) := SString (Some d).
Definition num := SNumber None.
Definition numd (d : string) := SNumber (Some d).
Definition arr (it : schema) := SArray None it.
Definition obj (props : list (string * schema)) (req : list string) := SObject None props req.

(** ** [generateQuiz] (lines 8-44) *)

Definition quizPrompt (topic : string) (count : nat) (difficulty : string) : string :=
  "Generate a " +:+ nat_to_string count +:+ "-question multiple-choice quiz on the topic "
  +:+ dq +:+ topic +:+ dq +:+ " with " +:+ difficulty
  +:+ " difficulty. For each question, provide one correct answer, three plausible but incorrect distractors, and a brief explanation for the correct answer.".

Definition questionSchema : schema :=
  obj [("question", str); ("options", arr str); ("answer", str); ("explanation", str)]
      ["question"; "options"; "answer"; "explanation"].

Definition quizSchema : schema := obj [("questions", arr questionSchema)] ["questions"].

Definition quizRequest (topic : string) (count : nat) (difficulty : string) : Request :=
  mkRequest model (quizPrompt topic count difficulty) (Some "application/json")
    (Some quizSchema).

(** ** [generateRoadmap] (lines 46-82) *)

Definition roadmapPrompt (topic : string) : string :=
  "Create a detailed learning roadmap for the topic " +:+ dq +:+ topic +:+ dq
  +:+ ". The roadmap should be structured into logical steps. For each step, provide a title, a short description of what to learn, and a list of recommended online resources (articles, videos, tutorials).".

Definition stepSchema : schema :=
  obj [("step", num); ("title", str); ("description", str); ("resources", arr str)]
      ["step"; "title"; "description"; "resources"].

Definition roadmapSchema : schema :=
  obj [("title", str); ("steps", arr stepSchema)] ["title"; "steps"].

Definition roadmapRequest (topic : string) : Request :=
  mkRequest model (roadmapPrompt topic) (Some "application/json") (Some roadmapSchema).

(** ** [scanAts] (lines 84-157) *)

Definition atsMatchPrompt (resumeText jobDescription : string) : string :=
  lines ["Act as an expert ATS (Applicant Tracking System) scanner. Analyze the following resume against the provided job description.";
         "    "; sp8 +:+ "Resume:"; sp8 +:+ "---"; sp8 +:+ resumeText; sp8 +:+ "---"; sp8;
         sp8 +:+ "Job Description:"; sp8 +:+ "---"; sp8 +:+ jobDescription; sp8 +:+ "---";
         sp8; sp8 +:+ "Provide a detailed analysis in JSON format."].

Definition atsMatchSchema : schema :=
  obj [("score", numd "A score out of 100 representing the match.");
       ("matchRate", strd "A percentage string for the match rate.");
       ("keywords", obj [("missing", arr str); ("found", arr str)] []);
       ("summary", strd "A brief summary of the analysis.");
       ("suggestions", strd "Actionable suggestions for improving the resume for this specific job.")]
      ["score"; "matchRate"; "keywords"; "summary"; "suggestions"].

Definition atsReviewPrompt (resumeText : string) : string :=
  lines ["Act as an expert career coach and resume writer. Critically analyze the following resume. Provide a detailed analysis of its strengths and weaknesses. Give a concise summary and offer actionable suggestions for improvement. Structure your response in JSON format.";
         sp8; sp8 +:+ "Resume:"; sp8 +:+ "---"; sp8 +:+ resumeText; sp8 +:+ "---"; sp8].

Definition atsReviewSchema : schema :=
  obj [("summary", strd "A brief summary of the resume's overall quality and presentation.");
       ("suggestions", strd "Actionable suggestions for improving the resume globally.");
       ("strengths", strd "A paragraph detailing the key strengths of the resume.");
       ("weaknesses", strd "A paragraph detailing the key weaknesses or areas for improvement.")]
      ["summary"; "suggestions"; "strengths"; "weaknesses"].

(** The branch of line 85: [if (jobDescription.trim())]. *)
Definition atsRequest (resumeText jobDescription : string) : Request :=
  if js_truthy (trim jobDescription) then
    mkRequest "gemini-2.5-pro" (atsMatchPrompt resumeText jobDescription)
      (Some "application/json") (Some atsMatchSchema)
  else
    mkRequest "gemini-2.5-pro" (atsReviewPrompt resumeText)
      (Some "application/json") (Some atsReviewSchema).

(** ** [generateInterviewReport] (lines 159-220) *)

(** [transcript.map(turn => `${turn.speaker}: ${turn.text}`).join('\n')] *)
Definition transcriptText (transcript : list InterviewTurn) : string :=
  join nl (map (fun t => speaker_str (speaker t) +:+ ": " +:+ text t) transcript).

(** The prompt, with [context.type], [context.role] and [context.resume]. *)
Definition reportPrompt (transcript : list InterviewTurn) (ctype role resume : string)
  : string :=
  lines [""; sp8 +:+ "Act as an expert interview coach. Analyze the provided interview transcript and context.";
         sp8; sp8 +:+ "**Interview Context:**"; sp8 +:+ "- Type: " +:+ ctype;
         sp8 +:+ "- Role/Topic: " +:+ (if js_truthy role then role else "General");
         sp8 +:+ (if js_truthy resume then "- Candidate's Resume Provided." else "");
         ""; sp8 +:+ "**Interview Transcript:**"; sp8 +:+ "---";
         sp8 +:+ transcriptText transcript; sp8 +:+ "---"; "";
         sp8 +:+ "Based on the transcript and context, provide a comprehensive performance report for the candidate in a structured JSON format.";
         "    "].

Definition competencySchema : schema :=
  obj [("name", strd "Name of the competency (e.g., 'Clarity & Conciseness', 'Technical Depth', 'Problem-Solving').");
       ("score", numd "Score from 1 to 10 for this competency.");
       ("feedback", strd "Brief feedback on this competency.")]
      ["name"; "score"; "feedback"].

Definition reportSchema : schema :=
  obj [("overallScore", numd "A score out of 100 for overall performance.");
       ("summary", strd "A brief, high-level overview of the candidate's performance.");
       ("competencies",
         SArray (Some "Assessment of 3-4 key competencies.") competencySchema);
       ("strengths", SArray (Some "A list of specific strengths, with examples.") str);
       ("areasForImprovement",
         SArray (Some "A list of specific areas for improvement, with constructive advice.") str);
       ("recommendation", strd "A final recommendation (e.g., 'Strongly Recommend', 'Recommend').")]
      ["overallScore"; "summary"; "competencies"; "strengths"; "areasForImprovement";
       "recommendation"].

Definition reportRequest (transcript : list InterviewTurn) (ctype role resume : string)
  : Request :=
  mkRequest "gemini-2.5-pro" (reportPrompt transcript ctype role resume)
    (Some "application/json") (Some reportSchema).

(** ** The remote model and [JSON.parse]

    [generateContent] is [None] when the promise rejects; [json_parse] is
    [None] when [JSON.parse] throws. *)
Class Remote := {
  generateContent : Request -> option string;
  json_parse : string -> option json;
}.

(** The structured-output contract: a reply to a request that declares a
    schema parses, after [trim], to a value conforming to the schema. *)
Class RemoteLaws `{Remote} := {
  structured_output req s t :
    responseSchema req = Some s -> generateContent req = Some t ->
    exists j, json_parse (trim t) = Some j /\ conforms j s = true
}.

(** [obj.prop] on a parsed value: [None] is the [TypeError] of a property
    read on [null]; [Some None] is [undefined]. *)
Definition get_prop (k : string) (j : json) : option (option json) :=
  match j with
  | JNull => None
  | JObj kvs => Some (lookup_key k kvs)
  | _ => Some None
  end.

(** ** How the components read a parsed value

    Truthiness ([!result], [result.keywords &&]). *)
Definition json_truthy (j : json) : bool :=
  match j with
  | JNull => false
  | JBool b => b
  | JNum n => negb (Z.eqb n 0)
  | JStr s => js_truthy s
  | JArr _ | JObj _ => true
  end.

(** A value React accepts as a child: not a plain object. *)
Fixpoint renderable (j : json) : bool :=
  match j with
  | JObj _ => false
  | JArr xs => forallb renderable xs
  | _ => true
  end.

(** [{o}] for a property that may be [undefined]. *)
Definition child (o : option json) : bool :=
  match o with Some j => renderable j | None => true end.

(** [j.k] on a value that is not [null]. *)
Definition prop (k : string) (j : json) : option json := default None (get_prop k j).

(** [j.k.map(...)]: anything but an array throws. *)
Definition array_at (k : string) (kw : json) : option (list json) :=
  match prop k kw with Some (JArr xs) => Some xs | _ => None end.

Section Service.
Context `{Remote}.

(** [generateContent] then [JSON.parse(response.text.trim())]. *)
Definition call (req : Request) : option json :=
  generateContent req ≫= fun t => json_parse (trim t).

(** [generateQuiz] returns [result.questions]. *)
Definition generateQuiz (topic : string) (count : nat) (difficulty : string)
  : option (option json) :=
  call (quizRequest topic count difficulty) ≫= get_prop "questions".

Definition generateRoadmap (topic : string) : option json := call (roadmapRequest topic).

Definition scanAts (resumeText jobDescription : string) : option json :=
  call (atsRequest resumeText jobDescription).

Definition generateInterviewReport (transcript : list InterviewTurn)
  (ctype role resume : string) : option json :=
  call (reportRequest transcript ctype role resume).
End Service.

(** ** The typed readings the components make of a reply *)

Definition as_str (j : json) : option string :=
  match j with JStr s => Some s | _ => None end.
Definition as_num (j : json) : option Z :=
  match j with JNum n => Some n | _ => None end.
(** An array read item by item; anything else fails. *)
Definition read_arr {A} (rd : json -> option A) (j : json) : option (list A) :=
  match j with JArr xs => mapM rd xs | _ => None end.
Definition as_strs : json -> option (list string) := read_arr as_str.

Definition decode_keywords (j : json) : option AtsKeywords :=
  match j with
  | JObj kvs => Some (mkAtsKeywords (default [] (lookup_key "missing" kvs ≫= as_strs))
                                    (default [] (lookup_key "found" kvs ≫= as_strs)))
  | _ => None
  end.

(** An [AtsScanResult]: [summary] and [suggestions] present, the optional
    fields read as [undefined] when absent. *)
Definition decode_ats (j : json) : option AtsScanResult :=
  match j with
  | JObj kvs =>
      summary ← lookup_key "summary" kvs ≫= as_str;
      sugg ← lookup_key "suggestions" kvs ≫= as_str;
      Some (mkAtsScanResult (lookup_key "score" kvs ≫= as_num)
              (lookup_key "matchRate" kvs ≫= as_str)
              (lookup_key "keywords" kvs ≫= decode_keywords) summary sugg
              (lookup_key "strengths" kvs ≫= as_str)
              (lookup_key "weaknesses" kvs ≫= as_str))
  | _ => None
  end.

(** The typed readings of the other three replies: [QuizQuestion[]]
    ([result.questions]), [Roadmap] and [InterviewReport]. *)
Definition decode_question (j : json) : option QuizQuestion :=
  match j with
  | JObj kvs =>
      q ← lookup_key "question" kvs ≫= as_str;
      o ← lookup_key "options" kvs ≫= as_strs;
      a ← lookup_key "answer" kvs ≫= as_str;
      e ← lookup_key "explanation" kvs ≫= as_str;
      Some (mkQuizQuestion q o a e)
  | _ => None
  end.

Definition decode_questions : json -> option (list QuizQuestion) :=
  read_arr decode_question.

Definition decode_step (j : json) : option RoadmapStep :=
  match j with
  | JObj kvs =>
      n ← lookup_key "step" kvs ≫= as_num;
      t ← lookup_key "title" kvs ≫= as_str;
      d ← lookup_key "description" kvs ≫= as_str;
      r ← lookup_key "resources" kvs ≫= as_strs;
      Some (mkRoadmapStep n t d r)
  | _ => None
  end.

Definition decode_roadmap (j : json) : option Roadmap :=
  match j with
  | JObj kvs =>
      t ← lookup_key "title" kvs ≫= as_str;
      st ← lookup_key "steps" kvs ≫= read_arr decode_step;
      Some (mkRoadmap t st)
  | _ => None
  end.

Definition decode_competency (j : json) : option Competency :=
  match j with
  | JObj kvs =>
      n ← lookup_key "name" kvs ≫= as_str;
      sc ← lookup_key "score" kvs ≫= as_num;
      f ← lookup_key "feedback" kvs ≫= as_str;
      Some (mkCompetency n sc f)
  | _ => None
  end.

Definition decode_report (j : json) : option InterviewReport :=
  match j with
  | JObj kvs =>
      o ← lookup_key "overallScore" kvs ≫= as_num;
      su ← lookup_key "summary" kvs ≫= as_str;
      cs ← lookup_key "competencies" kvs ≫= read_arr decode_competency;
      st ← lookup_key "strengths" kvs ≫= as_strs;
      ar ← lookup_key "areasForImprovement" kvs ≫= as_strs;
      r ← lookup_key "recommendation" kvs ≫= as_str;
      Some (mkInterviewReport o su cs st ar r)
  | _ => None
  end.

(** ** Lemmas on conformance *)

Lemma lookup_key_In {A} (k : string) (l : list (string * A)) v :
  lookup_key k l = Some v -> In (k, v) l.
Proof.
  induction l as [|[k' v'] l IH]; simpl; [done|].
  destruct (String.eqb_spec k k'); intros H; simplify_eq; auto.
Qed.

Lemma conforms_obj kvs d props req :
  conforms (JObj kvs) (SObject d props req) = true ->
  (forall k, In k req -> is_Some (lookup_key k kvs)) /\
  (forall k v, lookup_key k kvs = Some v ->
     exists s, lookup_key k props = Some s /\ conforms v s = true).
Proof.
  cbn [conforms]. intros H. apply andb_prop in H as [Hr Hk]. split.
  - intros k Hin. eapply forallb_forall in Hr; [|exact Hin].
    destruct (lookup_key k kvs); [by eexists|done].
  - intros k v Hl. apply lookup_key_In in Hl.
    eapply forallb_forall in Hk; [|exact Hl]. cbn in Hk.
    destruct (lookup_key k props) eqn:E; [by eexists|done].
Qed.

Lemma conforms_object_inv j d props req :
  conforms j (SObject d props req) = true -> exists kvs, j = JObj kvs.
Proof. destruct j; try done. by eexists. Qed.

Lemma conforms_string_inv j d : conforms j (SString d) = true -> exists s, j = JStr s.
Proof. destruct j; try done. by eexists. Qed.

Lemma conforms_number_inv j d : conforms j (SNumber d) = true -> exists n, j = JNum n.
Proof. destruct j; try done. by eexists. Qed.

(** The value of a key declared with a scalar schema, in a conforming
    object, is a scalar of that kind; an undeclared key is absent. *)
Lemma conforms_key_str kvs d props req k sd :
  conforms (JObj kvs) (SObject d props req) = true ->
  lookup_key k props = Some (SString sd) -> In k req ->
  exists s, lookup_key k kvs = Some (JStr s).
Proof.
  intros H Hp Hin. destruct (conforms_obj _ _ _ _ H) as [Hr Hk].
  destruct (Hr k Hin) as [v Hv]. destruct (Hk k v Hv) as [s' [Hs' Hc]].
  rewrite Hp in Hs'. simplify_eq. destruct (conforms_string_inv _ _ Hc) as [x ->]. eauto.
Qed.

Lemma conforms_key_num kvs d props req k sd :
  conforms (JObj kvs) (SObject d props req) = true ->
  lookup_key k props = Some (SNumber sd) -> In k req ->
  exists n, lookup_key k kvs = Some (JNum n).
Proof.
  intros H Hp Hin. destruct (conforms_obj _ _ _ _ H) as [Hr Hk].
  destruct (Hr k Hin) as [v Hv]. destruct (Hk k v Hv) as [s' [Hs' Hc]].
  rewrite Hp in Hs'. simplify_eq. destruct (conforms_number_inv _ _ Hc) as [x ->]. eauto.
Qed.

Lemma conforms_key_absent kvs d props req k :
  conforms (JObj kvs) (SObject d props req) = true ->
  lookup_key k props = None -> lookup_key k kvs = None.
Proof.
  intros H Hp. destruct (lookup_key k kvs) as [v|] eqn:Hv; [|done].
  destruct (conforms_obj _ _ _ _ H) as [_ Hk]. destruct (Hk k v Hv) as [s' [Hs' _]].
  congruence.
Qed.

(** The value of a required key conforms to the key's schema. *)
Lemma conforms_key kvs d props req k s :
  conforms (JObj kvs) (SObject d props req) = true ->
  lookup_key k props = Some s -> In k req ->
  exists v, lookup_key k kvs = Some v /\ conforms v s = true.
Proof.
  intros H Hp Hin. destruct (conforms_obj _ _ _ _ H) as [Hr Hk].
  destruct (Hr k Hin) as [v Hv]. destruct (Hk k v Hv) as [s' [Hs' Hc]].
  rewrite Hp in Hs'. simplify_eq. eauto.
Qed.

(** A reader that accepts every value of a schema reads a required key of
    a conforming object. *)
Lemma conforms_read {A} (rd : json -> option A) kvs d props req k s :
  conforms (JObj kvs) (SObject d props req) = true ->
  lookup_key k props = Some s -> In k req ->
  (forall v, conforms v s = true -> is_Some (rd v)) ->
  is_Some (lookup_key k kvs ≫= rd).
Proof.
  intros H Hp Hin Hrd. destruct (conforms_key _ _ _ _ _ _ H Hp Hin) as [v [-> Hv]].
  exact (Hrd v Hv).
Qed.

Lemma conforms_arr xs d it :
  conforms (JArr xs) (SArray d it) = true -> Forall (fun x => conforms x it = true) xs.
Proof.
  cbn [conforms]. intros H. apply List.Forall_forall. intros x Hx.
  exact (proj1 (List.forallb_forall _ _) H x Hx).
Qed.

Lemma conforms_array_inv j d it : conforms j (SArray d it) = true -> exists xs, j = JArr xs.
Proof. destruct j; try done. by eexists. Qed.

(** Every array of a conforming value is read by a reader that accepts
    every item. *)
Lemma conforms_mapM {A} (rd : json -> option A) xs d it :
  conforms (JArr xs) (SArray d it) = true ->
  (forall v, conforms v it = true -> is_Some (rd v)) -> is_Some (mapM rd xs).
Proof.
  intros H Hrd. apply mapM_is_Some_2. eapply Forall_impl; [exact (conforms_arr _ _ _ H)|].
  intros x Hx. exact (Hrd x Hx).
Qed.

Lemma as_str_conforms v d : conforms v (SString d) = true -> is_Some (as_str v).
Proof. intros H. destruct (conforms_string_inv _ _ H) as [x ->]. by eexists. Qed.

Lemma as_num_conforms v d : conforms v (SNumber d) = true -> is_Some (as_num v).
Proof. intros H. destruct (conforms_number_inv _ _ H) as [x ->]. by eexists. Qed.

Lemma read_arr_conforms {A} (rd : json -> option A) d it v :
  (forall x, conforms x it = true -> is_Some (rd x)) ->
  conforms v (SArray d it) = true -> is_Some (read_arr rd v).
Proof.
  intros Hrd H. destruct (conforms_array_inv _ _ _ H) as [xs ->].
  exact (conforms_mapM _ _ _ _ H Hrd).
Qed.

#[local] Hint Resolve as_str_conforms as_num_conforms read_arr_conforms : prep.

(** Read the required field [k] of the conforming object [H] with the
    reader of its schema. *)
Ltac read_field H k :=
  lazymatch goal with
  | |- context [mbind ?rd (lookup_key k ?kvs)] =>
      let E := fresh "E" in
      let v := fresh "v" in
      destruct (conforms_read rd kvs _ _ _ k _ H eq_refl ltac:(simpl; tauto)
                  ltac:(eauto with prep)) as [v E];
      rewrite E; cbn [mbind option_bind]
  end.

Lemma decode_question_conforms v :
  conforms v questionSchema = true -> is_Some (decode_question v).
Proof.
  intros H. destruct (conforms_object_inv _ _ _ _ H) as [kvs ->]. cbn [decode_question].
  read_field H "question"; read_field H "options"; read_field H "answer";
    read_field H "explanation". by eexists.
Qed.

Lemma decode_step_conforms v : conforms v stepSchema = true -> is_Some (decode_step v).
Proof.
  intros H. destruct (conforms_object_inv _ _ _ _ H) as [kvs ->]. cbn [decode_step].
  read_field H "step"; read_field H "title"; read_field H "description";
    read_field H "resources". by eexists.
Qed.

Lemma decode_competency_conforms v :
  conforms v competencySchema = true -> is_Some (decode_competency v).
Proof.
  intros H. destruct (conforms_object_inv _ _ _ _ H) as [kvs ->]. cbn [decode_competency].
  read_field H "name"; read_field H "score"; read_field H "feedback". by eexists.
Qed.

#[local] Hint Resolve decode_question_conforms decode_step_conforms
  decode_competency_conforms : prep.

Lemma decode_roadmap_conforms v : conforms v roadmapSchema = true -> is_Some (decode_roadmap v).
Proof.
  intros H. destruct (conforms_object_inv _ _ _ _ H) as [kvs ->]. cbn [decode_roadmap].
  read_field H "title"; read_field H "steps". by eexists.
Qed.

Lemma decode_report_conforms v : conforms v reportSchema = true -> is_Some (decode_report v).
Proof.
  intros H. destruct (conforms_object_inv _ _ _ _ H) as [kvs ->]. cbn [decode_report].
  read_field H "overallScore"; read_field H "summary"; read_field H "competencies";
    read_field H "strengths"; read_field H "areasForImprovement";
    read_field H "recommendation". by eexists.
Qed.

Lemma prop_obj k kvs : prop k (JObj kvs) = lookup_key k kvs.
Proof. reflexivity. Qed.

Lemma strings_renderable xs d d' :
  conforms (JArr xs) (SArray d (SString d')) = true -> forallb renderable xs = true.
Proof.
  intros H. apply forallb_forall. intros x Hx.
  pose proof (proj1 (List.Forall_forall _ _) (conforms_arr _ _ _ H) x Hx) as Hc.
  by destruct (conforms_string_inv _ _ Hc) as [? ->].
Qed.

Lemma call_conforms `{RemoteLaws} req s j :
  responseSchema req = Some s -> call req = Some j -> conforms j s = true.
Proof.
  unfold call. intros Hs Hc. destruct (generateContent req) as [t|] eqn:Ht; [|done].
  cbn in Hc. destruct (structured_output req s t Hs Ht) as [j' [Hp Hj]]. congruence.
Qed.

(** ** Theorems *)

(** C20: [scanAts] chooses its request by the trimmed job description: a
    description made only of white space gets the general review; a real
    one gets the match request, whose prompt carries both texts.  Both
    prompts carry the resume. *)
Theorem ats_branch_on_trimmed_jd resume jd :
  responseSchema (atsRequest resume jd) =
    Some (if js_truthy (trim jd) then atsMatchSchema else atsReviewSchema) /\
  (js_truthy (trim jd) = true -> includes (contents (atsRequest resume jd)) jd = true) /\
  includes (contents (atsRequest resume jd)) resume = true.
Proof.
  unfold atsRequest. destruct (js_truthy (trim jd)); cbn [responseSchema contents].
  - split_and!; [done| |];
      [intros _|]; unfold atsMatchPrompt, lines; eapply includes_join;
      [| apply includes_app_r, includes_refl| |apply includes_app_r, includes_refl];
      simpl; tauto.
  - split_and!; [done|discriminate|]. unfold atsReviewPrompt, lines.
    eapply includes_join; [|apply includes_app_r, includes_refl]. simpl; tauto.
Qed.

Lemma ats_branch_on_trimmed_jd_witness :
  responseSchema (atsRequest "Ten years of Rust." " ") = Some atsReviewSchema /\
  includes (contents (atsRequest "Ten years of Rust." "Rust engineer"))
    "Rust engineer" = true.
Proof.
  split.
  - exact (proj1 (ats_branch_on_trimmed_jd "Ten years of Rust." " ")).
  - apply (proj1 (proj2 (ats_branch_on_trimmed_jd "Ten years of Rust." "Rust engineer"))).
    reflexivity.
Defined.

(** C19: under the structured-output contract, the reply of [scanAts] is
    read as an [AtsScanResult] without failure; with a job description it
    has a score and a match rate (the view of line 65 shows the match),
    without one it has neither but has strengths and weaknesses (the
    general review is shown). *)
Theorem scanAts_reading `{RemoteLaws} resume jd j :
  scanAts resume jd = Some j ->
  exists r, decode_ats j = Some r /\
    (if js_truthy (trim jd)
     then is_Some (score r) /\ is_Some (matchRate r)
     else score r = None /\ matchRate r = None /\
          is_Some (strengths_text r) /\ is_Some (weaknesses r)).
Proof.
  unfold scanAts, atsRequest. intros Hc.
  assert (Hj : conforms j (if js_truthy (trim jd) then atsMatchSchema else atsReviewSchema)
               = true).
  { eapply call_conforms; [|exact Hc]. by destruct (js_truthy (trim jd)). }
  destruct (js_truthy (trim jd)).
  - destruct (conforms_object_inv _ _ _ _ Hj) as [kvs ->].
    destruct (conforms_key_str _ _ _ _ "summary" _ Hj eq_refl) as [su Hsu]; [simpl; tauto|].
    destruct (conforms_key_str _ _ _ _ "suggestions" _ Hj eq_refl) as [sg Hsg];
      [simpl; tauto|].
    destruct (conforms_key_num _ _ _ _ "score" _ Hj eq_refl) as [n Hn]; [simpl; tauto|].
    destruct (conforms_key_str _ _ _ _ "matchRate" _ Hj eq_refl) as [m Hm]; [simpl; tauto|].
    eexists. cbn [decode_ats]. rewrite Hsu, Hsg. cbn. split; [reflexivity|].
    cbn. rewrite Hn, Hm. split; eexists; reflexivity.
  - destruct (conforms_object_inv _ _ _ _ Hj) as [kvs ->].
    destruct (conforms_key_str _ _ _ _ "summary" _ Hj eq_refl) as [su Hsu]; [simpl; tauto|].
    destruct (conforms_key_str _ _ _ _ "suggestions" _ Hj eq_refl) as [sg Hsg];
      [simpl; tauto|].
    destruct (conforms_key_str _ _ _ _ "strengths" _ Hj eq_refl) as [st Hst];
      [simpl; tauto|].
    destruct (conforms_key_str _ _ _ _ "weaknesses" _ Hj eq_refl) as [wk Hwk];
      [simpl; tauto|].
    eexists. cbn [decode_ats]. rewrite Hsu, Hsg. cbn. split; [reflexivity|].
    cbn. rewrite (conforms_key_absent _ _ _ _ "score" Hj eq_refl),
           (conforms_key_absent _ _ _ _ "matchRate" Hj eq_refl), Hst, Hwk.
    split_and!; try reflexivity; eexists; reflexivity.
Qed.

(** C24: under the structured-output contract, every reply of the three
    other service functions is read as the type the caller declares:
    [generateQuiz] returns a defined [questions] array of [QuizQuestion]s,
    [generateRoadmap] a [Roadmap], [generateInterviewReport] an
    [InterviewReport]. *)
Theorem structured_replies_decode `{RemoteLaws} :
  (forall topic n d r, generateQuiz topic n d = Some r ->
     exists j qs, r = Some j /\ decode_questions j = Some qs) /\
  (forall topic j, generateRoadmap topic = Some j -> is_Some (decode_roadmap j)) /\
  (forall tr ty ro re j, generateInterviewReport tr ty ro re = Some j ->
     is_Some (decode_report j)).
Proof.
  split_and!.
  - intros topic n d r. unfold generateQuiz.
    destruct (call (quizRequest topic n d)) as [j|] eqn:Hc; [|done]. cbn. intros Hr.
    pose proof (call_conforms (quizRequest topic n d) quizSchema j eq_refl Hc) as Hj.
    destruct (conforms_object_inv _ _ _ _ Hj) as [kvs ->]. cbn in Hr. simplify_eq.
    destruct (conforms_key _ _ _ _ "questions" _ Hj eq_refl) as [v [Hv Hvc]];
      [simpl; tauto|].
    rewrite Hv. destruct (read_arr_conforms decode_question _ _ v
                            decode_question_conforms Hvc) as [qs Hqs].
    eauto.
  - intros topic j Hc. apply decode_roadmap_conforms, (call_conforms (roadmapRequest topic) _ _ eq_refl Hc).
  - intros tr ty ro re j Hc. apply decode_report_conforms, (call_conforms (reportRequest tr ty ro re) _ _ eq_refl Hc).
Qed.

(** A remote that honours the contract for the two ATS schemas. *)
Definition review_json : json :=
  JObj [("summary", JStr "Solid."); ("suggestions", JStr "Quantify results.");
        ("strengths", JStr "Clear layout."); ("weaknesses", JStr "No metrics.")].
Definition match_json (score : Z) : json :=
  JObj [("score", JNum score); ("matchRate", JStr "72%");
        ("keywords", JObj [("missing", JArr [JStr "Kubernetes"]); ("found", JArr [JStr "Rust"])]);
        ("summary", JStr "Good match."); ("suggestions", JStr "Mention Kubernetes.")].

Definition roadmap_json : json :=
  JObj [("title", JStr "Rust");
        ("steps", JArr [JObj [("step", JNum 1); ("title", JStr "Ownership");
                              ("description", JStr "Moves and borrows.");
                              ("resources", JArr [JStr "https://doc.rust-lang.org/book/"])]])].

Definition demo_generate (req : Request) : option string :=
  match responseSchema req with
  | Some s => if conforms review_json s then Some "review"
              else if conforms (match_json 72) s then Some "match"
              else if conforms roadmap_json s then Some "roadmap" else None
  | None => None
  end.

Definition demo_parse (t : string) : option json :=
  if String.eqb t "review" then Some review_json
  else if String.eqb t "match" then Some (match_json 72)
  else if String.eqb t "roadmap" then Some roadmap_json else None.

#[local] Instance demo_remote : Remote :=
  { generateContent := demo_generate; json_parse := demo_parse }.

#[local] Instance demo_remote_laws : RemoteLaws.
Proof.
  constructor. intros req s t Hs Hg. change (demo_generate req = Some t) in Hg.
  unfold demo_generate in Hg. rewrite Hs in Hg.
  destruct (conforms review_json s) eqn:E1.
  { simplify_eq. exists review_json. split; [reflexivity|exact E1]. }
  destruct (conforms (match_json 72) s) eqn:E2.
  { simplify_eq. exists (match_json 72). split; [reflexivity|exact E2]. }
  destruct (conforms roadmap_json s) eqn:E3; simplify_eq.
  exists roadmap_json. split; [reflexivity|exact E3].
Qed.

Lemma scanAts_reading_witness :
  exists r, decode_ats review_json = Some r /\ score r = None /\ matchRate r = None /\
    is_Some (strengths_text r) /\ is_Some (weaknesses r).
Proof.
  exact (scanAts_reading "Ten years of Rust." "" review_json eq_refl).
Defined.

Lemma structured_replies_decode_witness : is_Some (decode_roadmap roadmap_json).
Proof. exact (proj1 (proj2 structured_replies_decode) "Rust" roadmap_json eq_refl). Defined.

End Gemini.
