(* ===== verification/ReportView.v ===== *)
(** The report view of [src/components/InterviewMode.tsx] (the
    [finished] case of [renderContent], lines 292-360).

    The component stores the reply of [generateInterviewReport] as it was
    parsed ([setReport(generatedReport)]) and the view reads its
    properties: the overall score and its ring, the summary and the
    recommendation, one card per competency with a bar of width
    [comp.score * 10]%, and the two lists.  Rendering is a function to an
    [option]; [None] is a [TypeError] thrown while rendering.  In
    [Interview.v] the stored report is already typed; the theorems here
    show that under the structured-output contract the raw reply renders
    and is read as that typed report. *)

From Stdlib Require Import ZArith.
From S2P Require Import Prelude JsString Types Gemini.

Module ReportView.
Import Gemini.

(** [style={{ width: `${comp.score * 10}%` }}]: a number scaled by ten;
    anything else gives [NaN%], which the browser ignores. *)
Definition bar_width (sc : option json) : option Z :=
  match sc with Some (JNum k) => Some (k * 10)%Z | _ => None end.

Record CompCard := mkCard {
  card_name : option json;
  card_score : option json;
  card_width : option Z;
  card_feedback : option json;
}.

(** One competency card (lines 321-332); a [null] entry throws on
    [comp.name]. *)
Definition renderComp (c : json) : option CompCard :=
  n ← get_prop "name" c;
  sc ← get_prop "score" c;
  f ← get_prop "feedback" c;
  if (child n && child sc && child f)%bool then Some (mkCard n sc (bar_width sc) f) else None.

Inductive rview :=
| RVNull
| RVShown (overall : option json) (cards : list CompCard) (strengths areas : list json).

(** The [finished] case: [if (!report) return null], then the view. *)
Definition renderReport (r : option json) : option rview :=
  match r with
  | None => Some RVNull
  | Some j =>
      if negb (json_truthy j) then Some RVNull
      else
        o ← get_prop "overallScore" j;
        su ← get_prop "summary" j;
        re ← get_prop "recommendation" j;
        comps ← array_at "competencies" j;
        cards ← mapM renderComp comps;
        sts ← array_at "strengths" j;
        ars ← array_at "areasForImprovement" j;
        if (child o && child su && child re && forallb renderable sts &&
            forallb renderable ars)%bool
        then Some (RVShown o cards sts ars) else None
  end.

(** ** Lemmas *)

(** A conforming competency renders, and its bar is ten times the score
    its typed reading holds. *)
Lemma renderComp_conforms v :
  conforms v competencySchema = true ->
  exists card c, renderComp v = Some card /\ decode_competency v = Some c /\
    card_width card = Some (comp_score c * 10)%Z.
Proof.
  intros H. destruct (conforms_object_inv _ _ _ _ H) as [kvs ->].
  destruct (conforms_key_str _ _ _ _ "name" _ H eq_refl) as [n Hn]; [simpl; tauto|].
  destruct (conforms_key_num _ _ _ _ "score" _ H eq_refl) as [k Hk]; [simpl; tauto|].
  destruct (conforms_key_str _ _ _ _ "feedback" _ H eq_refl) as [f Hf]; [simpl; tauto|].
  unfold renderComp, decode_competency. cbn [get_prop]. rewrite Hn, Hk, Hf.
  cbn. do 2 eexists. split_and!; reflexivity.
Qed.

(** The cards of a conforming array, against its typed reading. *)
Lemma renderComps_conforms xs d :
  conforms (JArr xs) (SArray d competencySchema) = true ->
  exists cards cs, mapM renderComp xs = Some cards /\ mapM decode_competency xs = Some cs /\
    map card_width cards = map (fun c => Some (comp_score c * 10)%Z) cs.
Proof.
  intros H. pose proof (conforms_arr _ _ _ H) as Hall. clear H.
  induction Hall as [|x xs Hx _ IH].
  - by exists [], [].
  - destruct IH as (cards & cs & Hc & Hd & Hw).
    destruct (renderComp_conforms x Hx) as (card & c & Hc1 & Hd1 & Hw1).
    exists (card :: cards), (c :: cs). cbn. rewrite Hc1, Hd1, Hc, Hd. cbn.
    split_and!; [done|done|]. by rewrite Hw1, Hw.
Qed.

(** ** Theorems *)

(** C34: under the structured-output contract, the report view of a
    reply never throws: it shows one card per competency of the report's
    typed reading, each bar ten times that competency's score. *)
Theorem report_render_conforming j :
  conforms j reportSchema = true ->
  exists o cards sts ars r,
    renderReport (Some j) = Some (RVShown o cards sts ars) /\ decode_report j = Some r /\
    map card_width cards = map (fun c => Some (comp_score c * 10)%Z) (competencies r).
Proof.
  intros H. destruct (conforms_object_inv _ _ _ _ H) as [kvs ->].
  destruct (conforms_key_num _ _ _ _ "overallScore" _ H eq_refl) as [o Ho]; [simpl; tauto|].
  destruct (conforms_key_str _ _ _ _ "summary" _ H eq_refl) as [su Hsu]; [simpl; tauto|].
  destruct (conforms_key_str _ _ _ _ "recommendation" _ H eq_refl) as [re Hre]; [simpl; tauto|].
  destruct (conforms_key _ _ _ _ "competencies" _ H eq_refl) as [v [Hv Hvc]]; [simpl; tauto|].
  destruct (conforms_array_inv _ _ _ Hvc) as [xs ->].
  destruct (renderComps_conforms _ _ Hvc) as (cards & cs & Hc & Hd & Hw).
  destruct (conforms_key _ _ _ _ "strengths" _ H eq_refl) as [s [Hs Hsc]]; [simpl; tauto|].
  destruct (conforms_array_inv _ _ _ Hsc) as [sts ->].
  destruct (conforms_key _ _ _ _ "areasForImprovement" _ H eq_refl) as [a [Ha Hac]];
    [simpl; tauto|].
  destruct (conforms_array_inv _ _ _ Hac) as [ars ->].
  do 4 eexists. exists (mkInterviewReport o su cs
                         (default [] (mapM as_str sts)) (default [] (mapM as_str ars)) re).
  unfold renderReport, decode_report, array_at, prop, read_arr, as_strs, read_arr.
  cbn [get_prop default json_truthy negb].
  rewrite Ho, Hsu, Hre, Hv, Hs, Ha. cbn. rewrite Hc, Hd.
  destruct (conforms_mapM as_str _ _ _ Hsc (fun x Hx => as_str_conforms x _ Hx)) as [ss ->].
  destruct (conforms_mapM as_str _ _ _ Hac (fun x Hx => as_str_conforms x _ Hx)) as [aa ->].
  cbn. rewrite (strings_renderable _ _ _ Hsc), (strings_renderable _ _ _ Hac).
  split_and!; [reflexivity|reflexivity|exact Hw].
Qed.

(** A report that honours the schema with a competency scored 15. *)
Definition overscored_json : json :=
  JObj [("overallScore", JNum 140); ("summary", JStr "Strong.");
        ("competencies", JArr [JObj [("name", JStr "Technical Depth"); ("score", JNum 15);
                                     ("feedback", JStr "Excellent.")]]);
        ("strengths", JArr [JStr "Depth"]); ("areasForImprovement", JArr []);
        ("recommendation", JStr "Strongly Recommend")].

Lemma report_render_conforming_witness :
  exists o cards sts ars r,
    renderReport (Some overscored_json) = Some (RVShown o cards sts ars) /\
    decode_report overscored_json = Some r /\
    map card_width cards = map (fun c => Some (comp_score c * 10)%Z) (competencies r).
Proof. apply report_render_conforming. reflexivity. Defined.

End ReportView.
