(* ===== verification/Ats.v ===== *)
(** The ATS scanner [src/components/AtsScanner.tsx].

    State: the component's five [useState] cells; the parsed reply is kept
    as the JSON value [scanAts] returned, since the component stores it
    unchecked ([setResult(scanResult)]) and [renderResult] reads its
    properties directly.  [handleScan] is cut at its [await]: the request
    it issues is a pending pair (resume, job description), answered by
    [Gemini.scanAts] of an arbitrary remote.  Rendering is a function to an
    [option view]: [None] is a [TypeError] thrown while rendering
    ([.map] of a missing array, or an object given to React as a child),
    which unmounts the application since it has no error boundary. *)

From Stdlib Require Import ZArith.
From S2P Require Import Prelude JsString Types Gemini.

Module Ats.
Import Gemini.

Record AtsState := mkAts {
  resume : string;
  jobDescription : string;
  result : option json;
  isLoading : bool;
  error : option string;
}.

Definition init : AtsState := mkAts "" "" None false None.

Definition setResume (v : string) (s : AtsState) : AtsState :=
  mkAts v (jobDescription s) (result s) (isLoading s) (error s).
Definition setJobDescription (v : string) (s : AtsState) : AtsState :=
  mkAts (resume s) v (result s) (isLoading s) (error s).

(** [onDrop] after [readFileAsText] settles ([None]: it rejected).  Unlike
    the interview view it does not clear an earlier error. *)
Definition fileResumed (r : option string) (s : AtsState) : AtsState :=
  match r with
  | Some t => setResume t s
  | None => mkAts (resume s) (jobDescription s) (result s) (isLoading s)
              (Some "Error reading file. Please try again.")
  end.

(** [handleScan] up to its [await]: the new state and the request issued. *)
Definition handleScan (s : AtsState) : AtsState * option (string * string) :=
  if negb (js_truthy (resume s)) then
    (mkAts (resume s) (jobDescription s) (result s) (isLoading s)
       (Some "Please provide a resume to analyze."), None)
  else (mkAts (resume s) (jobDescription s) None true None,
        Some (resume s, jobDescription s)).

(** [handleScan] after its [await]. *)
Definition scanResumed (r : option json) (s : AtsState) : AtsState :=
  match r with
  | Some j => mkAts (resume s) (jobDescription s) (Some j) false (error s)
  | None => mkAts (resume s) (jobDescription s) (result s) false
              (Some "Failed to scan. Please try again.")
  end.

(** ** Rendering *)

Inductive view :=
| VSpinner
| VEmpty
| VMatch (score : json) (keywords : option (list json * list json))
| VReview.

(** [renderResult] (lines 61-134). *)
Definition renderResult (r : option json) : option view :=
  match r with
  | None => Some VEmpty
  | Some j =>
      if negb (json_truthy j) then Some VEmpty
      else
        match prop "score" j with
        | Some sc =>
            if (renderable sc && child (prop "matchRate" j) && child (prop "summary" j)
                && child (prop "suggestions" j))%bool
            then
              match prop "keywords" j with
              | Some kw =>
                  if json_truthy kw then
                    found ← array_at "found" kw;
                    missing ← array_at "missing" kw;
                    if (forallb renderable found && forallb renderable missing)%bool
                    then Some (VMatch sc (Some (found, missing))) else None
                  else Some (VMatch sc None)
              | None => Some (VMatch sc None)
              end
            else None
        | None =>
            if (child (prop "summary" j) && child (prop "strengths" j) &&
                child (prop "weaknesses" j) && child (prop "suggestions" j))%bool
            then Some VReview else None
        end
  end.

(** Line 186: the spinner while loading, the result otherwise. *)
Definition render (s : AtsState) : option view :=
  if isLoading s then Some VSpinner else renderResult (result s).

(** ** The component with its pending request *)

Record AtsWorld := mkAW { ats : AtsState; pending : list (string * string) }.

Section Steps.
Context `{Remote}.

(** One rule per control ([disabled={isLoading}] on the scan button,
    line 176) and per settled promise. *)
Inductive astep : AtsWorld -> AtsWorld -> Prop :=
| AS_resume v s p : astep (mkAW s p) (mkAW (setResume v s) p)
| AS_jd v s p : astep (mkAW s p) (mkAW (setJobDescription v s) p)
| AS_file r s p : astep (mkAW s p) (mkAW (fileResumed r s) p)
| AS_scan s p : isLoading s = false ->
    astep (mkAW s p) (mkAW (handleScan s).1 (p ++ option_list (handleScan s).2))
| AS_reply s res jd p :
    astep (mkAW s ((res, jd) :: p)) (mkAW (scanResumed (scanAts res jd) s) p).
End Steps.

(** A stored result is a reply to one of the two requests. *)
Definition result_conforms (s : AtsState) : Prop :=
  forall j, result s = Some j ->
    conforms j atsMatchSchema = true \/ conforms j atsReviewSchema = true.

(** Whether the keywords object of a match reply carries both arrays. *)
Definition keywords_complete (j : json) : bool :=
  match prop "keywords" j with
  | Some kw => if json_truthy kw then
                 bool_decide (is_Some (array_at "found" kw) /\ is_Some (array_at "missing" kw))
               else true
  | None => true
  end.

(** ** Lemmas *)

(** An optional key of a conforming object is absent or conforms. *)
Lemma conforms_opt_key kvs d props req k s :
  conforms (JObj kvs) (SObject d props req) = true -> lookup_key k props = Some s ->
  lookup_key k kvs = None \/ exists v, lookup_key k kvs = Some v /\ conforms v s = true.
Proof.
  intros H Hp. destruct (lookup_key k kvs) as [v|] eqn:Hv; [right|by left].
  destruct (conforms_obj _ _ _ _ H) as [_ Hk]. destruct (Hk k v Hv) as [s' [Hs' Hc]].
  rewrite Hp in Hs'. simplify_eq. eauto.
Qed.

(** An array of a conforming keywords object is absent (reading it
    throws) or an array of strings (it renders). *)
Lemma array_at_keywords kws k :
  conforms (JObj kws) (obj [("missing", arr str); ("found", arr str)] []) = true ->
  k = "missing" \/ k = "found" ->
  array_at k (JObj kws) = None \/
  exists xs, array_at k (JObj kws) = Some xs /\ forallb renderable xs = true.
Proof.
  intros H Hk. unfold array_at. rewrite prop_obj.
  assert (lookup_key k [("missing", arr str); ("found", arr str)] = Some (arr str)) as Hp
    by (destruct Hk as [-> | ->]; reflexivity).
  destruct (conforms_opt_key _ _ _ _ _ _ H Hp) as [->|[v [-> Hv]]]; [by left|right].
  destruct (conforms_array_inv _ _ _ Hv) as [xs ->]. eauto using strings_renderable.
Qed.

(** ** Theorems *)

(** C26: the result view on a reply that honours the schema of its
    request: a general review always renders as the review view; a match
    reply renders as the match view, except that a [keywords] object
    without its [found] or [missing] array (the schema declares neither
    required) makes [result.keywords.found.map] throw while rendering. *)
Theorem ats_render_conforming j :
  (conforms j atsReviewSchema = true -> renderResult (Some j) = Some VReview) /\
  (conforms j atsMatchSchema = true ->
     (renderResult (Some j) = None <-> keywords_complete j = false) /\
     (forall v, renderResult (Some j) = Some v -> exists sc kw, v = VMatch sc kw)).
Proof.
  split; intros H; destruct (conforms_object_inv _ _ _ _ H) as [kvs ->];
    unfold renderResult, keywords_complete; cbn [json_truthy negb]; rewrite !prop_obj.
  - destruct (conforms_key_str _ _ _ _ "summary" _ H eq_refl) as [su ->]; [simpl; tauto|].
    destruct (conforms_key_str _ _ _ _ "suggestions" _ H eq_refl) as [sg ->]; [simpl; tauto|].
    destruct (conforms_key_str _ _ _ _ "strengths" _ H eq_refl) as [st ->]; [simpl; tauto|].
    destruct (conforms_key_str _ _ _ _ "weaknesses" _ H eq_refl) as [wk ->]; [simpl; tauto|].
    by rewrite (conforms_key_absent _ _ _ _ "score" H eq_refl).
  - destruct (conforms_key_num _ _ _ _ "score" _ H eq_refl) as [n ->]; [simpl; tauto|].
    destruct (conforms_key_str _ _ _ _ "matchRate" _ H eq_refl) as [m ->]; [simpl; tauto|].
    destruct (conforms_key_str _ _ _ _ "summary" _ H eq_refl) as [su ->]; [simpl; tauto|].
    destruct (conforms_key_str _ _ _ _ "suggestions" _ H eq_refl) as [sg ->]; [simpl; tauto|].
    destruct (conforms_key _ _ _ _ "keywords" _ H eq_refl) as [v [-> Hv]]; [simpl; tauto|].
    destruct (conforms_object_inv _ _ _ _ Hv) as [kws ->]. cbn -[array_at].
    destruct (array_at_keywords _ "found" Hv (or_intror eq_refl)) as [->|[xf [-> Hf]]];
    destruct (array_at_keywords _ "missing" Hv (or_introl eq_refl)) as [->|[xm [-> Hm]]];
    cbn [mbind option_bind]; rewrite ?Hf, ?Hm; cbn [andb];
    [rewrite bool_decide_false by (intros [[? [=]] _]) ..
    |rewrite bool_decide_false by (intros [_ [? [=]]])
    |rewrite bool_decide_true by (split; eexists; reflexivity)];
    (split; [done|]); intros ? [=]; eauto.
Qed.

(** A match reply whose [keywords] object is empty: it honours the
    schema, and rendering it throws. *)
Definition empty_keywords_json : json :=
  JObj [("score", JNum 64); ("matchRate", JStr "64%"); ("keywords", JObj []);
        ("summary", JStr "Partial match."); ("suggestions", JStr "Add keywords.")].

Lemma ats_render_conforming_witness : renderResult (Some empty_keywords_json) = None.
Proof.
  apply (proj2 (proj1 (proj2 (ats_render_conforming empty_keywords_json) eq_refl))).
  reflexivity.
Defined.

Lemma result_conforms_step `{RemoteLaws} w w' :
  result_conforms (ats w) -> astep w w' -> result_conforms (ats w').
Proof.
  unfold result_conforms. intros Hinv Hs; destruct Hs; cbn [ats] in *; try done.
  - destruct r; auto.
  - unfold handleScan. destruct (negb _); cbn; [done|discriminate].
  - unfold scanResumed. destruct (scanAts res jd) as [j|] eqn:Hc; cbn; [|done].
    intros ? [= <-]. unfold scanAts, atsRequest in Hc.
    destruct (js_truthy (trim jd)); [left|right]; eapply call_conforms; eauto; done.
Qed.

(** C25: under the structured-output contract, in every run of the
    scanner the stored result is a reply to one of the two requests: it
    conforms to the match schema or to the review schema. *)
Theorem ats_reachable_result_conforms `{RemoteLaws} w :
  rtc astep (mkAW init []) w -> result_conforms (ats w).
Proof.
  intros Hr. remember (mkAW init []) as w0 eqn:E.
  assert (result_conforms (ats w0)) as Hw0 by (subst; intros ? [=]).
  clear E. induction Hr; eauto using result_conforms_step.
Qed.

Lemma ats_reachable_result_conforms_witness :
  result_conforms
    (ats (mkAW (scanResumed (@scanAts demo_remote "Ten years of Rust." "") (handleScan (setResume "Ten years of Rust." init)).1) [])).
Proof.
  apply (@ats_reachable_result_conforms demo_remote demo_remote_laws).
  eapply rtc_l; [apply (AS_resume "Ten years of Rust.")|].
  eapply rtc_l; [apply AS_scan; reflexivity|].
  eapply rtc_l; [apply AS_reply|]. apply rtc_refl.
Defined.

End Ats.
