(* ===== verification/Roadmap.v ===== *)
(** The roadmap generator [src/components/RoadmapGenerator.tsx].

    State: the four [useState] cells; the reply is kept as the parsed value
    [generateRoadmap] returned.  [handleGenerate] is cut at its [await];
    the pending request (the topic) is answered by [Gemini.generateRoadmap]
    of an arbitrary remote.  Rendering is a function to an [option]:
    [None] is a [TypeError] thrown while rendering. *)

From Stdlib Require Import ZArith.
From S2P Require Import Prelude JsString Types Gemini.

Module RoadmapGen.
Import Gemini.

Record RoadmapState := mkRS {
  topic : string;
  roadmap : option json;
  isLoading : bool;
  error : option string;
}.

Definition init : RoadmapState := mkRS "" None false None.

Definition setTopic (v : string) (s : RoadmapState) : RoadmapState :=
  mkRS v (roadmap s) (isLoading s) (error s).

(** [handleGenerate] up to its [await] (lines 17-26): the new state and
    the topic of the request issued. *)
Definition handleGenerate (s : RoadmapState) : RoadmapState * option string :=
  if negb (js_truthy (topic s)) then
    (mkRS (topic s) (roadmap s) (isLoading s) (Some "Please enter a topic."), None)
  else (mkRS (topic s) None true None, Some (topic s)).

(** [handleGenerate] after its [await] (lines 27-33). *)
Definition generateResumed (r : option json) (s : RoadmapState) : RoadmapState :=
  match r with
  | Some j => mkRS (topic s) (Some j) false (error s)
  | None => mkRS (topic s) (roadmap s) false
              (Some "Failed to generate roadmap. Please try again.")
  end.

(** ** Rendering (lines 63-86) *)

(** One step card: [step.step], [step.title], [step.description] and the
    links of [step.resources]; a [null] step throws on [step.step]. *)
Definition renderStep (st : json)
  : option (option json * option json * option json * list json) :=
  n ← get_prop "step" st;
  t ← get_prop "title" st;
  d ← get_prop "description" st;
  rs ← array_at "resources" st;
  if (child n && child t && child d && forallb renderable rs)%bool
  then Some (n, t, d, rs) else None.

Inductive rview :=
| RNone
| RShown (title : option json) (steps : list (option json * option json * option json * list json)).

(** [{roadmap && (...)}] *)
Definition renderRoadmap (r : option json) : option rview :=
  match r with
  | None => Some RNone
  | Some j =>
      if negb (json_truthy j) then Some RNone
      else
        t ← get_prop "title" j;
        steps ← array_at "steps" j;
        cards ← mapM renderStep steps;
        if child t then Some (RShown t cards) else None
  end.

(** ** The component with its pending request *)

Record RoadmapWorld := mkRW { rs : RoadmapState; pending : list string }.

Section Steps.
Context `{Remote}.

(** The topic input, the Generate button ([disabled={isLoading}], line
    54) and the settled request. *)
Inductive rstep : RoadmapWorld -> RoadmapWorld -> Prop :=
| RS_topic v s p : rstep (mkRW s p) (mkRW (setTopic v s) p)
| RS_generate s p : isLoading s = false ->
    rstep (mkRW s p) (mkRW (handleGenerate s).1 (p ++ option_list (handleGenerate s).2))
| RS_reply s t p : rstep (mkRW s (t :: p)) (mkRW (generateResumed (generateRoadmap t) s) p).
End Steps.

(** ** Lemmas *)

Lemma renderStep_conforms v : conforms v stepSchema = true -> is_Some (renderStep v).
Proof.
  intros H. destruct (conforms_object_inv _ _ _ _ H) as [kvs ->].
  destruct (conforms_key_num _ _ _ _ "step" _ H eq_refl) as [n Hn]; [simpl; tauto|].
  destruct (conforms_key_str _ _ _ _ "title" _ H eq_refl) as [t Ht]; [simpl; tauto|].
  destruct (conforms_key_str _ _ _ _ "description" _ H eq_refl) as [d Hd]; [simpl; tauto|].
  destruct (conforms_key _ _ _ _ "resources" _ H eq_refl) as [r [Hr Hrc]]; [simpl; tauto|].
  destruct (conforms_array_inv _ _ _ Hrc) as [xs ->].
  unfold renderStep, array_at, prop. cbn [get_prop default]. rewrite Hn, Ht, Hd, Hr.
  cbn. rewrite (strings_renderable _ _ _ Hrc). by eexists.
Qed.

(** A conforming roadmap renders with one card per step, and reads as a
    [Roadmap] with as many steps. *)
Lemma renderRoadmap_conforms j :
  conforms j roadmapSchema = true ->
  exists t cards r, renderRoadmap (Some j) = Some (RShown t cards) /\
    decode_roadmap j = Some r /\ length cards = length (steps r).
Proof.
  intros H. destruct (conforms_object_inv _ _ _ _ H) as [kvs ->].
  destruct (conforms_key_str _ _ _ _ "title" _ H eq_refl) as [t Ht]; [simpl; tauto|].
  destruct (conforms_key _ _ _ _ "steps" _ H eq_refl) as [v [Hv Hvc]]; [simpl; tauto|].
  destruct (conforms_array_inv _ _ _ Hvc) as [xs ->].
  destruct (conforms_mapM _ _ _ _ Hvc renderStep_conforms) as [cards Hc].
  destruct (conforms_mapM _ _ _ _ Hvc decode_step_conforms) as [sts Hs].
  exists (Some (JStr t)), cards, (mkRoadmap t sts).
  unfold renderRoadmap, array_at, prop, decode_roadmap, read_arr. cbn [get_prop default json_truthy negb].
  rewrite Ht, Hv. cbn. rewrite Hc, Hs. cbn. split_and!; [done|done|].
  apply mapM_Some_1, Forall2_length in Hc. apply mapM_Some_1, Forall2_length in Hs.
  cbn [steps]. lia.
Qed.

Definition roadmap_conforms (s : RoadmapState) : Prop :=
  forall j, roadmap s = Some j -> conforms j roadmapSchema = true.

Lemma roadmap_conforms_step `{RemoteLaws} w w' :
  roadmap_conforms (rs w) -> rstep w w' -> roadmap_conforms (rs w').
Proof.
  unfold roadmap_conforms. intros Hinv Hs; destruct Hs; cbn [rs] in *; try done.
  - unfold handleGenerate. destruct (negb _); cbn; [done|discriminate].
  - unfold generateResumed. destruct (generateRoadmap t) as [j|] eqn:Hc; cbn; [|done].
    intros ? [= <-]. exact (call_conforms (roadmapRequest t) _ _ eq_refl Hc).
Qed.

(** ** Theorems *)

(** C27: under the structured-output contract, every state of the
    roadmap generator renders without throwing, and a stored roadmap is
    shown with one card per step of its typed reading. *)
Theorem roadmap_reachable_renders `{RemoteLaws} w :
  rtc rstep (mkRW init []) w ->
  is_Some (renderRoadmap (roadmap (rs w))) /\
  (forall j, roadmap (rs w) = Some j ->
     exists t cards r, renderRoadmap (Some j) = Some (RShown t cards) /\
       decode_roadmap j = Some r /\ length cards = length (steps r)).
Proof.
  intros Hr. assert (roadmap_conforms (rs w)) as Hc.
  { remember (mkRW init []) as w0 eqn:E.
    assert (roadmap_conforms (rs w0)) as Hw0 by (subst; intros ? [=]).
    clear E. induction Hr; eauto using roadmap_conforms_step. }
  split.
  - destruct (roadmap (rs w)) as [j|] eqn:E; [|by eexists].
    destruct (renderRoadmap_conforms j (Hc j E)) as (t & cards & r & -> & _). by eexists.
  - intros j E. exact (renderRoadmap_conforms j (Hc j E)).
Qed.

Lemma roadmap_reachable_renders_witness :
  is_Some (renderRoadmap (roadmap (rs
    (mkRW (generateResumed (@generateRoadmap demo_remote "Rust")
             (handleGenerate (setTopic "Rust" init)).1) [])))).
Proof.
  apply (@roadmap_reachable_renders demo_remote demo_remote_laws).
  eapply rtc_l; [apply (RS_topic "Rust")|].
  eapply rtc_l; [apply RS_generate; reflexivity|].
  eapply rtc_l; [apply RS_reply|]. apply rtc_refl.
Defined.

End RoadmapGen.
