(* ===== verification/Practice.v ===== *)
(** The practice arena [src/components/PracticeMode.tsx].

    State: the five [useState] cells, the speech recognition hook of
    [SpeechRecognition.v] (whose [transcript] is the answer box: the
    textarea edits it through [setTranscript]) and the pending requests.
    The two handlers are cut at their [await]; a request is a plain text
    request to [gemini-2.5-flash], answered by [generateContent] of an
    arbitrary remote ([None]: the call rejected).  The buttons are those of
    the current render, so the handlers read the live state. *)

From S2P Require Import Prelude JsString Types SpeechRecognition Gemini.

Module Practice.
Import Gemini.
Import Recognition.

Record PracticeState := mkPS {
  topic : string;
  question : string;
  feedback : string;
  isLoading : bool;
  error : option string;
}.

Definition init : PracticeState := mkPS "" "" "" false None.

Definition setTopic (v : string) (s : PracticeState) : PracticeState :=
  mkPS v (question s) (feedback s) (isLoading s) (error s).

(** The prompt of line 34. *)
Definition questionPrompt (topic : string) : string :=
  "Generate a single, common technical interview question about " +:+ dq +:+ topic +:+ dq
  +:+ ". This can be a coding problem (provide a stub in Python), a system design question, or a conceptual question.".

Definition sp16 : string := sp8 +:+ sp8.

(** The prompt of lines 56-61. *)
Definition feedbackPrompt (question transcript : string) : string :=
  lines [""; sp16 +:+ "Question: " +:+ dq +:+ question +:+ dq;
         sp16 +:+ "Candidate's Answer: " +:+ dq +:+ transcript +:+ dq; sp16;
         sp16 +:+ "Provide constructive feedback on the candidate's answer. Be specific about what was good and what could be improved. Suggest a model answer for comparison. Structure your feedback in Markdown with headings for Clarity, Correctness, and Completeness, followed by a Model Answer. If it's a coding question, analyze the code for correctness, efficiency, and style.";
         "            "].

(** [ai.models.generateContent({ model: 'gemini-2.5-flash', contents })]. *)
Definition textRequest (contents : string) : Request :=
  mkRequest "gemini-2.5-flash" contents None None.

Inductive preq := PQuestion (prompt : string) | PFeedback (prompt : string).

Record PracticeWorld := mkPW {
  pr : PracticeState;
  rec : RecState;
  pending : list preq;
}.

(** [getNewQuestion] up to its [await] (lines 22-35). *)
Definition getNewQuestion (w : PracticeWorld) : PracticeWorld :=
  let s := pr w in
  if negb (js_truthy (topic s)) then
    mkPW (mkPS (topic s) (question s) (feedback s) (isLoading s)
            (Some "Please enter a topic.")) (rec w) (pending w)
  else
    mkPW (mkPS (topic s) "" "" true None) (setTranscript "" (rec w))
      (pending w ++ [PQuestion (questionPrompt (topic s))]).

(** [getNewQuestion] after its [await] (lines 36-45). *)
Definition questionResumed (r : option string) (s : PracticeState) : PracticeState :=
  match r with
  | Some t => mkPS (topic s) t (feedback s) false (error s)
  | None => mkPS (topic s) (question s) (feedback s) false
              (Some "Failed to generate a question. Please try again.")
  end.

(** [submitAnswer] up to its [await] (lines 48-65): the answer is the
    transcript as it stands when the button is pressed. *)
Definition submitAnswer (w : PracticeWorld) : PracticeWorld :=
  let s := pr w in
  let t := transcript (rec w) in
  if negb (js_truthy t) then w
  else
    mkPW (mkPS (topic s) (question s) "" true None)
      (stopListening (isListening (rec w)) (rec w))
      (pending w ++ [PFeedback (feedbackPrompt (question s) t)]).

(** [submitAnswer] after its [await] (lines 66-72). *)
Definition feedbackResumed (r : option string) (s : PracticeState) : PracticeState :=
  match r with
  | Some t => mkPS (topic s) (question s) t false (error s)
  | None => mkPS (topic s) (question s) (feedback s) false
              (Some "Failed to get feedback. Please try again.")
  end.

(** The microphone button (line 124) of the current render. *)
Definition micClick (r : RecState) : RecState :=
  if isListening r then stopListening true r else startListening false r.

Definition resumed (p : preq) (r : option string) : PracticeState -> PracticeState :=
  match p with PQuestion _ => questionResumed r | PFeedback _ => feedbackResumed r end.

Definition prompt_of (p : preq) : string :=
  match p with PQuestion t | PFeedback t => t end.

Section Steps.
Context `{Remote}.

(** One rule per control the view offers (lines 84-147) and per event of
    the recognizer or the remote.  The answer box, the microphone and
    Submit are shown only once there is a question. *)
Inductive pstep : PracticeWorld -> PracticeWorld -> Prop :=
| PS_topic v s r p : pstep (mkPW s r p) (mkPW (setTopic v s) r p)
| PS_new w : isLoading (pr w) = false -> pstep w (getNewQuestion w)
| PS_text v s r p : js_truthy (question s) = true ->
    pstep (mkPW s r p) (mkPW s (setTranscript v r) p)
| PS_mic s r p : js_truthy (question s) = true -> pstep (mkPW s r p) (mkPW s (micClick r) p)
| PS_submit w : js_truthy (question (pr w)) = true -> isLoading (pr w) = false ->
    js_truthy (transcript (rec w)) = true -> pstep w (submitAnswer w)
| PS_reply s r q p :
    pstep (mkPW s r (q :: p))
      (mkPW (resumed q (generateContent (textRequest (prompt_of q))) s) r p)
| PS_result i rs s r p e : recognitionRef r = Some e -> eng_phase e <> Idle ->
    pstep (mkPW s r p) (mkPW s (onresult i rs r) p)
| PS_end s r p e : recognitionRef r = Some e -> eng_phase e <> Idle ->
    pstep (mkPW s r p) (mkPW s (onend r) p)
| PS_error err s r p e : recognitionRef r = Some e -> eng_phase e <> Idle ->
    pstep (mkPW s r p) (mkPW s (onerror err r) p).
End Steps.

Definition init_world : PracticeWorld := mkPW init (mounted true) [].

(** ** Theorems *)

(** C29: Submit with a non-empty answer sends a feedback request quoting
    the question and the answer box verbatim, clears the previous feedback
    and the error, sets the loading flag and turns the microphone off;
    with an empty answer it does nothing. *)
Theorem submitAnswer_spec w :
  rec_inv (rec w) ->
  let w' := submitAnswer w in
  if js_truthy (transcript (rec w)) then
    pending w' = pending w ++ [PFeedback (feedbackPrompt (question (pr w)) (transcript (rec w)))] /\
    includes (feedbackPrompt (question (pr w)) (transcript (rec w)))
      (dq +:+ transcript (rec w) +:+ dq) = true /\
    feedback (pr w') = "" /\ error (pr w') = None /\ isLoading (pr w') = true /\
    isListening (rec w') = false
  else w' = w.
Proof.
  intros Hinv. unfold submitAnswer. destruct (js_truthy (transcript (rec w))); [|done].
  cbn [pending pr rec feedback error isLoading negb]. split_and!; try done.
  - unfold feedbackPrompt, lines. eapply includes_join;
      [|apply includes_app_r, includes_app_r, includes_refl]. simpl; tauto.
  - unfold rec_inv, stopListening in *.
    destruct (rec w) as [l t er [e|]]; cbn in *; [by destruct l|done].
Qed.

Lemma submitAnswer_spec_witness :
  let w := mkPW (mkPS "Arrays" "What is an array?" "" false None)
             (setTranscript "A list." (mounted true)) [] in
  isListening (rec (submitAnswer w)) = false.
Proof.
  intros w. apply (submitAnswer_spec w). simpl. intros _. split; discriminate.
Defined.

(** C28: Submit while the microphone is on sends the answer box as it
    stands; stopping the recognizer then delivers the final result of the
    words still being recognized, which is appended to the answer box
    after the request left: the feedback is about a shorter answer than
    the one shown. *)
Theorem submit_while_listening_loses_words `{Remote} q :
  generateContent (textRequest (questionPrompt "Arrays")) = Some q -> js_truthy q = true ->
  exists w, rtc pstep init_world w /\
    pending w = [PFeedback (feedbackPrompt q "An array")] /\
    transcript (rec w) = "An array stores items".
Proof.
  intros Hq Ht. eexists. split.
  - eapply rtc_l; [apply (PS_topic "Arrays")|].
    eapply rtc_l; [apply PS_new; reflexivity|].
    eapply rtc_l; [apply PS_reply|].
    eapply rtc_l; [apply PS_mic; cbn; by rewrite Hq|].
    eapply rtc_l; [eapply (PS_result 0 [mkResult true "An array"]); done|].
    eapply rtc_l; [apply PS_submit; cbn; rewrite ?Hq; done|].
    eapply rtc_l; [eapply (PS_result 1 [mkResult true "An array"; mkResult true "stores items"]);
                   done|].
    apply rtc_refl.
  - cbn. rewrite Hq. split; reflexivity.
Qed.

(** A remote that answers every text request with the same question. *)
Definition arrays_remote : Remote :=
  {| generateContent := fun _ => Some "What is an array?"; json_parse := fun _ => None |}.

Lemma submit_while_listening_loses_words_witness :
  exists w, @rtc _ (@pstep arrays_remote) init_world w /\
    pending w = [PFeedback (feedbackPrompt "What is an array?" "An array")] /\
    transcript (rec w) = "An array stores items".
Proof.
  apply (@submit_while_listening_loses_words arrays_remote); reflexivity.
Defined.

End Practice.
