(* ===== verification/Interview.v ===== *)
(** The mock-interview flow [src/components/InterviewMode.tsx] with the two
    speech hooks it uses.

    The component's [useState] cells and [chatRef] form the Record
    [Interview].  The world adds the recognition and synthesis hooks'
    states, the pending continuations of the [async] handlers (each carrying
    the render snapshot its closure captured), and the dependency values the
    effects last ran with.  [wstep] has one rule per button the rendered
    view offers, per engine event, per effect and per remote reply; a
    handler's synchronous part is a function on the world, its part after
    [await] another function applied to the reply.

    Reads of [useState] values go through the snapshot of the render the
    handler belongs to; reads of [chatRef.current] are live, as refs are. *)

From Stdlib Require Import ZArith Ascii.
From S2P Require Import Prelude JsString Types SpeechRecognition SpeechSynthesis.

Module Interview.
Import Recognition Synthesis.

(** [type InterviewType = 'Technical' | 'Behavioral' | 'Mixed'] *)
Inductive InterviewType := Technical | Behavioral | Mixed.

(** [type InterviewDuration = 5 | 15 | 30] *)
Inductive InterviewDuration := D5 | D15 | D30.

(** [type InterviewState = 'setup' | 'running' | 'generatingReport' | 'finished'] *)
Inductive InterviewState := setup | running | generatingReport | finished.

#[export] Instance InterviewType_eq_dec : EqDecision InterviewType.
Proof. solve_decision. Defined.
#[export] Instance InterviewDuration_eq_dec : EqDecision InterviewDuration.
Proof. solve_decision. Defined.
#[export] Instance InterviewState_eq_dec : EqDecision InterviewState.
Proof. solve_decision. Defined.

Definition type_str (t : InterviewType) : string :=
  match t with Technical => "Technical" | Behavioral => "Behavioral" | Mixed => "Mixed" end.

Definition minutes (d : InterviewDuration) : nat :=
  match d with D5 => 5 | D15 => 15 | D30 => 30 end.

(** The [Chat] object of [ai.chats.create]: an identity (one per call),
    the model, and the system instruction it was seeded with. *)
Record Chat := mkChat { chat_id : nat; chat_model : string; chat_system : string }.

#[export] Instance Chat_eq_dec : EqDecision Chat.
Proof. solve_decision. Defined.

(** The component's state: the [useState] cells and [chatRef]. *)
Record Interview := mkInterview {
  roleContext : string;
  resumeText : string;
  jobDescription : string;
  interviewType : InterviewType;
  interviewDuration : InterviewDuration;
  interviewState : InterviewState;
  isLoading : bool;
  error : option string;
  history : list InterviewTurn;
  report : option InterviewReport;
  chatRef : option Chat;
}.

(** The first render. *)
Definition init_ui : Interview :=
  mkInterview "" "" "" Mixed D15 setup false None [] None None.

(** One setter per state cell ([setX(v)]). *)
Definition setRoleContext v u := mkInterview v (resumeText u) (jobDescription u)
  (interviewType u) (interviewDuration u) (interviewState u) (isLoading u) (error u)
  (history u) (report u) (chatRef u).
Definition setResumeText v u := mkInterview (roleContext u) v (jobDescription u)
  (interviewType u) (interviewDuration u) (interviewState u) (isLoading u) (error u)
  (history u) (report u) (chatRef u).
Definition setJobDescription v u := mkInterview (roleContext u) (resumeText u) v
  (interviewType u) (interviewDuration u) (interviewState u) (isLoading u) (error u)
  (history u) (report u) (chatRef u).
Definition setInterviewType v u := mkInterview (roleContext u) (resumeText u)
  (jobDescription u) v (interviewDuration u) (interviewState u) (isLoading u) (error u)
  (history u) (report u) (chatRef u).
Definition setInterviewDuration v u := mkInterview (roleContext u) (resumeText u)
  (jobDescription u) (interviewType u) v (interviewState u) (isLoading u) (error u)
  (history u) (report u) (chatRef u).
Definition setInterviewState v u := mkInterview (roleContext u) (resumeText u)
  (jobDescription u) (interviewType u) (interviewDuration u) v (isLoading u) (error u)
  (history u) (report u) (chatRef u).
Definition setIsLoading v u := mkInterview (roleContext u) (resumeText u)
  (jobDescription u) (interviewType u) (interviewDuration u) (interviewState u) v
  (error u) (history u) (report u) (chatRef u).
Definition setError v u := mkInterview (roleContext u) (resumeText u)
  (jobDescription u) (interviewType u) (interviewDuration u) (interviewState u)
  (isLoading u) v (history u) (report u) (chatRef u).
Definition setHistory v u := mkInterview (roleContext u) (resumeText u)
  (jobDescription u) (interviewType u) (interviewDuration u) (interviewState u)
  (isLoading u) (error u) v (report u) (chatRef u).
Definition setReport v u := mkInterview (roleContext u) (resumeText u)
  (jobDescription u) (interviewType u) (interviewDuration u) (interviewState u)
  (isLoading u) (error u) (history u) v (chatRef u).
Definition setChatRef v u := mkInterview (roleContext u) (resumeText u)
  (jobDescription u) (interviewType u) (interviewDuration u) (interviewState u)
  (isLoading u) (error u) (history u) (report u) v.

(** What a render's closures see: the component's state, the recognition
    hook's [isListening] and the synthesis hook's [isSpeaking] (the
    dependencies of [stopListening] and [speak]). *)
Record Snap := mkSnap { s_ui : Interview; s_listening : bool; s_speaking : bool }.

(** A remote reply: the response text, or a rejected promise. *)
Inductive reply := ROk (t : string) | RFail.

(** The reply of [generateInterviewReport]. *)
Inductive report_reply := RepOk (r : InterviewReport) | RepFail.

(** The reply of [readFileAsText]. *)
Inductive file_reply := FileOk (t : string) | FileFail.

(** The [context] object passed to [generateInterviewReport]. *)
Record ReportContext := mkContext {
  ctx_type : InterviewType;
  ctx_duration : InterviewDuration;
  ctx_role : string;
  ctx_resume : string;
  ctx_jd : string;
}.

(** Pending continuations. *)
Inductive pending :=
| PStart (sn : Snap) (c : Chat)
    (** [handleStartInterview] awaiting [chat.sendMessage("Hello, let's begin.")] *)
| PSend (sn : Snap) (c : Chat) (msg : string) (newHistory : list InterviewTurn)
    (** [handleSendResponse] awaiting [chatRef.current.sendMessage(msg)] *)
| PTimer (sn : Snap)
    (** [setTimeout(() => generateAndSetReport(), 2000)] from the closure [sn] *)
| PReport (transcript : list InterviewTurn) (ctx : ReportContext)
    (** [generateAndSetReport] awaiting [generateInterviewReport] *)
| PFile
    (** [onDrop] awaiting [readFileAsText(file)] *).

(** The world: the component, its hooks, the pending continuations, the
    dependency values of the two effects at their last run, and the
    counter that names chat objects. *)
Record World := mkWorld {
  ui : Interview;
  rec : RecState;
  syn : SynState;
  pendings : list pending;
  eff_listening : bool;
  eff_speechError : option string;
  next_chat : nat;
}.

Definition snapshot (w : World) : Snap :=
  mkSnap (ui w) (Recognition.isListening (rec w)) (Synthesis.isSpeaking (syn w)).

Definition with_ui (u : Interview) (w : World) : World :=
  mkWorld u (rec w) (syn w) (pendings w) (eff_listening w) (eff_speechError w) (next_chat w).
Definition with_rec (r : RecState) (w : World) : World :=
  mkWorld (ui w) r (syn w) (pendings w) (eff_listening w) (eff_speechError w) (next_chat w).
Definition with_syn (s : SynState) (w : World) : World :=
  mkWorld (ui w) (rec w) s (pendings w) (eff_listening w) (eff_speechError w) (next_chat w).
Definition push (p : pending) (w : World) : World :=
  mkWorld (ui w) (rec w) (syn w) (pendings w ++ [p]) (eff_listening w)
    (eff_speechError w) (next_chat w).

(** ** The system instruction ([handleStartInterview], lines 82-87) *)

Definition nl : string := String (ascii_of_nat 10) EmptyString.
Definition dq : string := String (ascii_of_nat 34) EmptyString.
(** A line break of the template literal followed by the source's
    sixteen columns of indentation. *)
Definition indent : string := nl +:+ "                ".

Definition resume_part (resume : string) : string :=
  if js_truthy resume then
    "The candidate's resume is as follows:" +:+ nl +:+ "---" +:+ nl +:+ resume +:+ nl
    +:+ "---" +:+ nl
    +:+ "Tailor your questions based on the experience and skills listed in this resume."
  else "".

Definition jd_part (jd : string) : string :=
  if js_truthy jd then
    "You are hiring for the role described in the job description below:" +:+ nl
    +:+ "---" +:+ nl +:+ jd +:+ nl +:+ "---" +:+ nl
    +:+ "Assess the candidate's fitness for this specific role."
  else "".

Definition general_part (resume jd role : string) : string :=
  if (negb (js_truthy resume) && negb (js_truthy jd) && js_truthy role)%bool then
    "You are conducting a general interview about " +:+ dq +:+ role +:+ dq +:+ "."
  else "".

Definition context_part (resume jd role : string) : string :=
  if ((js_truthy resume || js_truthy jd) && js_truthy role)%bool then
    "The context for this interview is the " +:+ dq +:+ role +:+ dq +:+ " role."
  else "".

Definition closing_part (d : InterviewDuration) : string :=
  "Start with a simple, brief introduction like " +:+ dq
  +:+ "Hello, thanks for coming in today," +:+ dq
  +:+ " and then immediately ask the first question. Do not introduce yourself with a name. Keep your questions and responses concise. Wait for the user to respond before asking the next question. When you feel the interview has reached its natural conclusion or is near the end of the "
  +:+ nat_to_string (minutes d)
  +:+ " minute duration, conclude the session by saying " +:+ dq
  +:+ "Thank you, this concludes our interview." +:+ dq
  +:+ " Do not ask if the candidate has questions for you. Do not reveal that you are an AI.".

Definition systemInstruction (t : InterviewType) (d : InterviewDuration)
  (resume jd role : string) : string :=
  "You are a friendly but professional interviewer. Your goal is to conduct a "
  +:+ type_str t +:+ " interview that lasts approximately "
  +:+ nat_to_string (minutes d) +:+ " minutes." +:+ indent
  +:+ resume_part resume +:+ indent
  +:+ jd_part jd +:+ indent
  +:+ general_part resume jd role +:+ indent
  +:+ context_part resume jd role +:+ indent
  +:+ closing_part d.

(** The phrase whose presence in a reply ends the interview. *)
Definition closing_phrase : string := "concludes our interview".

Definition drop_pending (i : nat) (w : World) : World :=
  mkWorld (ui w) (rec w) (syn w) (delete i (pendings w)) (eff_listening w)
    (eff_speechError w) (next_chat w).

(** The world at the component's mount: the recognition hook's mount
    effect has run; the two effects have not seen a change yet. *)
Definition init_world (recSupported : bool) : World :=
  mkWorld init_ui (Recognition.mounted recSupported) Synthesis.initial [] false None 0.

(** [reportContext]: the [context] object of [generateAndSetReport]. *)
Definition reportContext (u : Interview) : ReportContext :=
  mkContext (interviewType u) (interviewDuration u) (roleContext u) (resumeText u)
    (jobDescription u).

(** ** Handlers

    [speak] depends on whether the browser has [speechSynthesis] and on
    the voices it lists; both are fixed for a run. *)
Section Handlers.
Context (synSupported : bool) (voices : list Voice).

(** [speak(t)] through the closure of the render [sn]. *)
Definition speak_in (sn : Snap) (t : string) (w : World) : World :=
  with_syn (Synthesis.speak synSupported (s_speaking sn) voices t (syn w)) w.

(** [handleStartInterview] up to its [await] (lines 72-96). *)
Definition handleStartInterview (sn : Snap) (w : World) : World :=
  let u := s_ui sn in
  if (negb (js_truthy (roleContext u)) && negb (js_truthy (resumeText u)))%bool then
    with_ui (setError (Some "Please provide a role/topic or upload a resume to start.")
               (ui w)) w
  else
    let c := mkChat (next_chat w) "gemini-2.5-flash"
               (systemInstruction (interviewType u) (interviewDuration u)
                  (resumeText u) (jobDescription u) (roleContext u)) in
    mkWorld (setChatRef (Some c) (setHistory [] (setError None (setIsLoading true (ui w)))))
      (rec w) (syn w) (pendings w ++ [PStart sn c]) (eff_listening w)
      (eff_speechError w) (S (next_chat w)).

(** [handleStartInterview] after its [await] (lines 97-107). *)
Definition startResumed (sn : Snap) (r : reply) (w : World) : World :=
  match r with
  | ROk t =>
      let w1 := with_ui (setHistory [mkTurn interviewer t] (ui w)) w in
      let w2 := speak_in sn t w1 in
      with_ui (setIsLoading false (setInterviewState running (ui w2))) w2
  | RFail =>
      with_ui (setIsLoading false
                 (setError (Some "Failed to start interview. Please try again.") (ui w))) w
  end.

(** [generateAndSetReport] up to its [await] (lines 110-124), through the
    closure of the render [sn].  Without [speechSynthesis], line 113
    ([window.speechSynthesis.cancel()]) throws a [TypeError]: the async
    function rejects, outside its [try], after lines 111-112, and nobody
    handles the rejection. *)
Definition generateAndSetReport (sn : Snap) (w : World) : World :=
  let w1 := with_ui (setIsLoading false (ui w)) w in
  let w2 := with_rec (Recognition.stopListening (s_listening sn) (rec w1)) w1 in
  if negb synSupported then w2 else
  let w3 := with_syn (mkSynState (Synthesis.isSpeaking (syn w2))
                        (Synthesis.cancel (engine (syn w2)))) w2 in
  let w4 := with_ui (setError None (setInterviewState generatingReport (ui w3))) w3 in
  push (PReport (history (s_ui sn)) (reportContext (s_ui sn))) w4.

(** [generateAndSetReport] after its [await] (lines 125-131). *)
Definition reportResumed (r : report_reply) (w : World) : World :=
  match r with
  | RepOk rep => with_ui (setInterviewState finished (setReport (Some rep) (ui w))) w
  | RepFail =>
      with_ui (setInterviewState setup
                 (setError (Some "Failed to generate the interview report.") (ui w))) w
  end.

(** [handleSendResponse] up to its [await] (lines 134-144). *)
Definition handleSendResponse (sn : Snap) (msg : string) (w : World) : World :=
  match chatRef (ui w) with
  | Some c =>
      if js_truthy msg then
        let newHistory := history (s_ui sn) ++ [mkTurn candidate msg] in
        let w1 := with_ui (setHistory newHistory (setIsLoading true (ui w))) w in
        let w2 := with_rec (Recognition.setTranscript "" (rec w1)) w1 in
        push (PSend sn c msg newHistory) w2
      else w
  | None => w
  end.

(** [handleSendResponse] after its [await] (lines 145-163). *)
Definition sendResumed (sn : Snap) (newHistory : list InterviewTurn) (r : reply)
  (w : World) : World :=
  match r with
  | ROk t =>
      let w1 := with_ui (setHistory (newHistory ++ [mkTurn interviewer t]) (ui w)) w in
      let w2 := if includes (toLowerCase t) closing_phrase
                then push (PTimer sn) w1 else speak_in sn t w1 in
      with_ui (setIsLoading false (ui w2)) w2
  | RFail =>
      with_ui (setIsLoading false
                 (setError (Some "There was an error with the interview. Please try again.")
                    (ui w))) w
  end.

(** The effect on [[isListening]] (lines 166-171). *)
Definition listenEffect (w : World) : World :=
  let l := Recognition.isListening (rec w) in
  let w1 := mkWorld (ui w) (rec w) (syn w) (pendings w) l (eff_speechError w)
              (next_chat w) in
  if (negb l && js_truthy (Recognition.transcript (rec w)))%bool
  then handleSendResponse (snapshot w) (Recognition.transcript (rec w)) w1
  else w1.

(** The effect on [[speechError]] (lines 66-70). *)
Definition speechErrorEffect (w : World) : World :=
  let e := Recognition.error (rec w) in
  let w1 := mkWorld (ui w) (rec w) (syn w) (pendings w) (eff_listening w) e
              (next_chat w) in
  match e with
  | Some m =>
      if js_truthy m
      then with_ui (setError (Some ("Speech recognition error: " +:+ m)) (ui w1)) w1
      else w1
  | None => w1
  end.

(** [handleNewInterview] (lines 178-186). *)
Definition handleNewInterview (w : World) : World :=
  with_ui (setChatRef None (setReport None (setHistory [] (setJobDescription ""
    (setResumeText "" (setRoleContext "" (setInterviewState setup (ui w)))))))) w.

(** [onDrop] after [readFileAsText] settles (lines 39-50). *)
Definition fileResumed (r : file_reply) (w : World) : World :=
  match r with
  | FileOk t => with_ui (setError None (setResumeText t (ui w))) w
  | FileFail => with_ui (setError (Some "Error reading file. Please try again.") (ui w)) w
  end.

(** The microphone button (line 282): [isListening ? stopListening :
    startListening] of the current render. *)
Definition micClick (w : World) : World :=
  let l := Recognition.isListening (rec w) in
  with_rec (if l then Recognition.stopListening l (rec w)
            else Recognition.startListening l (rec w)) w.

End Handlers.

(** ** The step relation

    [guard = false] is the program as written.  [guard = true] adds the
    discipline of spec section 9: the buttons and the listening effect act
    only when no request or timer is pending. *)
Section Steps.
Context (synSupported : bool) (voices : list Voice) (guard : bool).

Local Abbreviation idle w := (guard = true -> pendings w = []).

(** React flushes pending passive effects before it dispatches the next
    discrete event: a button acts only after both effects have seen the
    current dependency values. *)
Local Abbreviation settled w :=
  (Recognition.isListening (rec w) = eff_listening w /\
   Recognition.error (rec w) = eff_speechError w).


Inductive step : World -> World -> Prop :=
(* the setup view's inputs (lines 199-244) *)
| W_setRole v w : interviewState (ui w) = setup -> idle w -> settled w ->
    step w (with_ui (setRoleContext v (ui w)) w)
| W_setJd v w : interviewState (ui w) = setup -> idle w -> settled w ->
    step w (with_ui (setJobDescription v (ui w)) w)
| W_setType t w : interviewState (ui w) = setup -> idle w -> settled w ->
    step w (with_ui (setInterviewType t (ui w)) w)
| W_setDuration d w : interviewState (ui w) = setup -> idle w -> settled w ->
    step w (with_ui (setInterviewDuration d (ui w)) w)
| W_drop w : interviewState (ui w) = setup -> idle w -> settled w ->
    step w (push PFile w)
| W_file i r w : pendings w !! i = Some PFile ->
    step w (fileResumed r (drop_pending i w))
(* Start Interview, [disabled={isLoading}] (line 248) *)
| W_start w : interviewState (ui w) = setup -> isLoading (ui w) = false -> idle w -> settled w ->
    step w (handleStartInterview (snapshot w) w)
| W_start_reply i sn c r w : pendings w !! i = Some (PStart sn c) ->
    step w (startResumed synSupported voices sn r (drop_pending i w))
(* the running view: microphone (line 282) and End Interview (line 264) *)
| W_mic w : interviewState (ui w) = running -> idle w -> settled w -> step w (micClick w)
| W_stop w : interviewState (ui w) = running -> idle w -> settled w ->
    step w (generateAndSetReport synSupported (snapshot w) w)
| W_send_reply i sn c m nh r w : pendings w !! i = Some (PSend sn c m nh) ->
    step w (sendResumed synSupported voices sn nh r (drop_pending i w))
| W_timer i sn w : pendings w !! i = Some (PTimer sn) ->
    step w (generateAndSetReport synSupported sn (drop_pending i w))
| W_report_reply i h ctx r w : pendings w !! i = Some (PReport h ctx) ->
    step w (reportResumed r (drop_pending i w))
(* Try Another Interview, rendered only with a report (lines 293-354) *)
| W_new w : interviewState (ui w) = finished -> report (ui w) <> None -> idle w -> settled w ->
    step w (handleNewInterview w)
(* effects *)
| W_listen_effect w : Recognition.isListening (rec w) <> eff_listening w -> idle w ->
    step w (listenEffect w)
| W_error_effect w : Recognition.error (rec w) <> eff_speechError w ->
    step w (speechErrorEffect w)
(* speech engines *)
| W_rec_result i rs e w : recognitionRef (rec w) = Some e -> eng_phase e <> Idle ->
    step w (with_rec (onresult i rs (rec w)) w)
| W_rec_error err e w : recognitionRef (rec w) = Some e -> eng_phase e <> Idle ->
    step w (with_rec (Recognition.onerror err (rec w)) w)
| W_rec_end e w : recognitionRef (rec w) = Some e -> eng_phase e <> Idle ->
    step w (with_rec (Recognition.onend (rec w)) w)
| W_syn_start s' w : utter_start (syn w) = Some s' -> step w (with_syn s' w)
| W_syn_end s' w : utter_end (syn w) = Some s' -> step w (with_syn s' w)
| W_syn_error s' w : utter_error (syn w) = Some s' -> step w (with_syn s' w).

Definition reachable (recSupported : bool) (w : World) : Prop :=
  rtc step (init_world recSupported) w.

End Steps.

Lemma step_guard_weaken sup vs w w' : step sup vs true w w' -> step sup vs false w w'.
Proof. destruct 1; econstructor; eauto; discriminate. Qed.

(** ** An executable reading of the step relation

    One event per rule; [exec] returns [None] when the rule is not enabled.
    [exec_sound] makes every computed run a run of [step], so scenarios are
    checked by evaluation. *)
Inductive event :=
| ESetRole (v : string) | ESetJd (v : string)
| ESetType (t : InterviewType) | ESetDuration (d : InterviewDuration)
| EDrop | EFile (i : nat) (r : file_reply)
| EStart | EStartReply (i : nat) (r : reply)
| EMic | EStop | ESendReply (i : nat) (r : reply) | ETimer (i : nat)
| EReportReply (i : nat) (r : report_reply) | ENew
| EListenEffect | EErrorEffect
| ERecResult (i : nat) (rs : list SpeechResult) | ERecError (e : string) | ERecEnd
| ESynStart | ESynEnd | ESynError.

Section Exec.
Context (synSupported : bool) (voices : list Voice) (guard : bool).

Definition idle_b (w : World) : bool :=
  if guard then match pendings w with [] => true | _ => false end else true.

Definition settled_b (w : World) : bool :=
  bool_decide (Recognition.isListening (rec w) = eff_listening w) &&
  bool_decide (Recognition.error (rec w) = eff_speechError w).

Definition in_state (s : InterviewState) (w : World) : bool :=
  bool_decide (interviewState (ui w) = s) && idle_b w && settled_b w.

Definition rec_active (w : World) : bool :=
  match recognitionRef (rec w) with
  | Some e => bool_decide (eng_phase e <> Idle)
  | None => false
  end.

Definition exec (w : World) (ev : event) : option World :=
  match ev with
  | ESetRole v => if in_state setup w then Some (with_ui (setRoleContext v (ui w)) w) else None
  | ESetJd v => if in_state setup w then Some (with_ui (setJobDescription v (ui w)) w) else None
  | ESetType t => if in_state setup w then Some (with_ui (setInterviewType t (ui w)) w) else None
  | ESetDuration d =>
      if in_state setup w then Some (with_ui (setInterviewDuration d (ui w)) w) else None
  | EDrop => if in_state setup w then Some (push PFile w) else None
  | EFile i r =>
      match pendings w !! i with
      | Some PFile => Some (fileResumed r (drop_pending i w))
      | _ => None
      end
  | EStart =>
      if (in_state setup w && negb (isLoading (ui w)))%bool
      then Some (handleStartInterview (snapshot w) w) else None
  | EStartReply i r =>
      match pendings w !! i with
      | Some (PStart sn c) => Some (startResumed synSupported voices sn r (drop_pending i w))
      | _ => None
      end
  | EMic => if in_state running w then Some (micClick w) else None
  | EStop => if in_state running w then Some (generateAndSetReport synSupported (snapshot w) w) else None
  | ESendReply i r =>
      match pendings w !! i with
      | Some (PSend sn c m nh) =>
          Some (sendResumed synSupported voices sn nh r (drop_pending i w))
      | _ => None
      end
  | ETimer i =>
      match pendings w !! i with
      | Some (PTimer sn) => Some (generateAndSetReport synSupported sn (drop_pending i w))
      | _ => None
      end
  | EReportReply i r =>
      match pendings w !! i with
      | Some (PReport h ctx) => Some (reportResumed r (drop_pending i w))
      | _ => None
      end
  | ENew =>
      match report (ui w) with
      | Some _ => if in_state finished w then Some (handleNewInterview w) else None
      | None => None
      end
  | EListenEffect =>
      if (bool_decide (Recognition.isListening (rec w) <> eff_listening w) && idle_b w)%bool
      then Some (listenEffect w) else None
  | EErrorEffect =>
      if bool_decide (Recognition.error (rec w) <> eff_speechError w)
      then Some (speechErrorEffect w) else None
  | ERecResult i rs =>
      if rec_active w then Some (with_rec (onresult i rs (rec w)) w) else None
  | ERecError e =>
      if rec_active w then Some (with_rec (Recognition.onerror e (rec w)) w) else None
  | ERecEnd => if rec_active w then Some (with_rec (Recognition.onend (rec w)) w) else None
  | ESynStart => (fun s' => with_syn s' w) <$> utter_start (syn w)
  | ESynEnd => (fun s' => with_syn s' w) <$> utter_end (syn w)
  | ESynError => (fun s' => with_syn s' w) <$> utter_error (syn w)
  end.

Fixpoint run (w : World) (evs : list event) : option World :=
  match evs with
  | [] => Some w
  | ev :: evs' => exec w ev ≫= fun w' => run w' evs'
  end.

Lemma idle_b_spec w : idle_b w = true -> guard = true -> pendings w = [].
Proof. unfold idle_b. intros H ->. by destruct (pendings w). Qed.

Lemma exec_sound w ev w' : exec w ev = Some w' -> step synSupported voices guard w w'.
Proof.
  destruct ev; cbn [exec]; unfold in_state, settled_b, rec_active;
    repeat (case_match || bool_hyps); intros; simplify_eq;
    repeat match goal with H : bool_decide _ = true |- _ => apply bool_decide_eq_true in H end;
    try match goal with H : idle_b _ = true |- _ => pose proof (idle_b_spec _ H) end;
    try (econstructor; eauto; congruence).
  - apply fmap_Some in H as [s' [Hs ->]]. by econstructor.
  - apply fmap_Some in H as [s' [Hs ->]]. by econstructor.
  - apply fmap_Some in H as [s' [Hs ->]]. by econstructor.
Qed.

Lemma run_sound w evs w' : run w evs = Some w' -> rtc (step synSupported voices guard) w w'.
Proof.
  revert w; induction evs as [|ev evs IH]; intros w H; simpl in H; simplify_eq;
    [apply rtc_refl|].
  apply bind_Some in H as [w1 [H1 H2]].
  eapply rtc_l; [exact (exec_sound _ _ _ H1)|]. by apply IH.
Qed.

End Exec.

(** ** Automation: unfold a step to record projections *)

Ltac unfold_handlers :=
  unfold handleStartInterview, startResumed, generateAndSetReport, reportResumed,
    sendResumed, listenEffect, handleSendResponse, speechErrorEffect,
    handleNewInterview, fileResumed, micClick in *.

(** Lazy reduction of setters and projections: [unfold] would copy the
    eleven projections of each nested setter. *)
Ltac world_cbn :=
  cbn [with_ui with_rec with_syn push drop_pending speak_in snapshot
       setRoleContext setResumeText setJobDescription setInterviewType
       setInterviewDuration setInterviewState setIsLoading setError setHistory
       setReport setChatRef
       ui rec syn pendings eff_listening eff_speechError next_chat roleContext
       resumeText jobDescription interviewType interviewDuration interviewState
       isLoading error history report chatRef s_ui s_listening s_speaking negb] in *.

Ltac step_cases H :=
  destruct H; unfold_handlers; repeat case_match; world_cbn; simplify_eq.

(** ** Invariants of every run *)

Definition finished_has_report (w : World) : Prop :=
  interviewState (ui w) = finished -> report (ui w) <> None.

Lemma finished_has_report_step sup vs g w w' :
  finished_has_report w -> step sup vs g w w' -> finished_has_report w'.
Proof. unfold finished_has_report; intros Hinv Hs; step_cases Hs; naive_solver. Qed.

(** Every run the interpreter computes is a run of the step relation. *)
Lemma run_exists sup vs g w0 evs (P : World -> Prop) :
  match run sup vs g w0 evs with Some w => P w | None => False end ->
  exists w, rtc (step sup vs g) w0 w /\ P w.
Proof.
  destruct (run sup vs g w0 evs) as [w|] eqn:E; [|done].
  intros HP. exists w. split; [exact (run_sound _ _ _ _ _ _ E)|exact HP].
Qed.

Lemma finished_has_report_rtc sup vs g w w' :
  rtc (step sup vs g) w w' -> finished_has_report w -> finished_has_report w'.
Proof. induction 1; eauto using finished_has_report_step. Qed.

Definition is_start (p : pending) : bool :=
  match p with PStart _ _ => true | _ => false end.

(** An open chat handle backs the running view and every pending start. *)
Definition chat_open (w : World) : Prop :=
  (interviewState (ui w) = running -> is_Some (chatRef (ui w))) /\
  Forall (fun p => is_start p = true -> is_Some (chatRef (ui w))) (pendings w).

Ltac forall_solve :=
  repeat first
    [ apply Forall_app_2 | apply Forall_delete | apply Forall_cons_2
    | apply Forall_nil_2 | done | intros ? ].

Lemma chat_open_step sup vs w w' : chat_open w -> step sup vs true w w' -> chat_open w'.
Proof.
  intros [Hr Hp] Hs.
  assert (Hstart : forall i sn c, pendings w !! i = Some (PStart sn c) ->
                                  is_Some (chatRef (ui w))).
  { intros i sn c Hi. by apply (Forall_lookup_1 _ _ _ _ Hp Hi). }
  unfold chat_open. step_cases Hs; split;
    try match goal with H : pendings _ !! _ = Some (PStart _ _) |- _ =>
          pose proof (Hstart _ _ _ H) end;
    try match goal with H : true = true -> _ |- _ => specialize (H eq_refl) end;
    repeat match goal with H : pendings _ = [] |- _ => rewrite H end;
    forall_solve; eauto; discriminate.
Qed.

Definition is_report (p : pending) : bool :=
  match p with PReport _ _ => true | _ => false end.

(** No report has been requested, is awaited or is shown. *)
Definition no_report_yet (w : World) : Prop :=
  interviewState (ui w) <> generatingReport /\ interviewState (ui w) <> finished /\
  report (ui w) = None /\ Forall (fun p => is_report p = false) (pendings w).

Lemma no_report_yet_step vs g w w' :
  no_report_yet w -> step false vs g w w' -> no_report_yet w'.
Proof.
  intros (Hg & Hf & Hr & Hp) Hs.
  assert (Hrep : forall i h ctx, pendings w !! i <> Some (PReport h ctx)).
  { intros i h ctx Hi. by pose proof (Forall_lookup_1 _ _ _ _ Hp Hi). }
  unfold no_report_yet. step_cases Hs;
    try (exfalso; by eapply Hrep); split_and!; forall_solve; done.
Qed.

(** ** Concrete values for the scenarios *)

Definition sample_report : InterviewReport :=
  mkInterviewReport 85 "Clear answers." [] [] [] "Recommend".

Definition greeting : string := "Hello, thanks for coming in today. What is an array?".
Definition closing_line : string := "Thank you, this concludes our interview.".

(** A complete interview: role, start, one spoken answer, the closing
    line, the timer, the report. *)
Definition demo_events : list event :=
  [ESetRole "Arrays"; EStart; EStartReply 0 (ROk greeting);
   EMic; EListenEffect; ERecResult 0 [mkResult true "An indexed sequence."];
   EMic; EListenEffect; ESendReply 0 (ROk closing_line);
   ETimer 0; EReportReply 0 (RepOk sample_report)].

Definition demo_final : World :=
  default (init_world true) (run true [] true (init_world true) demo_events).

Lemma demo_reachable : rtc (step true [] true) (init_world true) demo_final.
Proof. apply run_sound with demo_events. vm_compute. reflexivity. Qed.

(** ** Theorems *)

(** C2: in every run, with or without the single-request discipline, the
    [finished] view always has a report: the [if (!report) return null]
    branch of [renderContent] (line 294) is unreachable. *)
Theorem reachable_finished_has_report sup vs g b w :
  rtc (step sup vs g) (init_world b) w ->
  interviewState (ui w) = finished -> report (ui w) <> None.
Proof.
  intros H. apply (finished_has_report_rtc _ _ _ _ _ H). by unfold finished_has_report.
Qed.

Lemma reachable_finished_has_report_witness :
  interviewState (ui demo_final) = finished /\ report (ui demo_final) <> None.
Proof.
  split; [vm_compute; reflexivity|].
  apply (reachable_finished_has_report true [] true true demo_final demo_reachable).
  vm_compute. reflexivity.
Defined.

(** C1: after an answer whose reply contains the closing phrase (in any
    letter case), the reply is shown but not spoken, a timer is set, and
    when it fires the report is requested with the transcript of the
    render that sent the answer: the candidate's last answer and the
    closing line, both in the live history, are missing from it.  The
    timer calls the [generateAndSetReport] of that render, whose
    [useCallback] closure holds the old [history].  (The browser has
    [speechSynthesis]; without it line 113 throws first, see
    [no_synthesis_no_report].) *)
Theorem concluding_reply_report_misses_last_exchange sup vs sn msg t c w :
  sup = true -> chatRef (ui w) = Some c -> js_truthy msg = true ->
  includes (toLowerCase t) closing_phrase = true ->
  let nh := history (s_ui sn) ++ [mkTurn candidate msg] in
  let w1 := handleSendResponse sn msg w in
  let w2 := sendResumed sup vs sn nh (ROk t) (drop_pending (length (pendings w)) w1) in
  let w3 := generateAndSetReport sup sn (drop_pending (length (pendings w)) w2) in
  pendings w1 = pendings w ++ [PSend sn c msg nh] /\
  syn w2 = syn w /\ pendings w2 = pendings w ++ [PTimer sn] /\
  interviewState (ui w3) = generatingReport /\
  history (ui w3) = history (s_ui sn) ++ [mkTurn candidate msg; mkTurn interviewer t] /\
  pendings w3 = pendings w ++ [PReport (history (s_ui sn)) (reportContext (s_ui sn))].
Proof.
  intros -> Hc Hm Hi. unfold handleSendResponse, sendResumed, generateAndSetReport.
  rewrite Hc, Hm. cbn iota beta. rewrite Hi. world_cbn.
  autorewrite with prep_rw. split_and!; try done. by rewrite <- app_assoc.
Qed.

Definition demo_chat : Chat := mkChat 0 "gemini-2.5-flash" "".

Lemma concluding_reply_report_misses_last_exchange_witness :
  let w := with_ui (setChatRef (Some demo_chat) init_ui) (init_world true) in
  pendings (generateAndSetReport true (snapshot w)
    (drop_pending 0 (sendResumed true [] (snapshot w) [mkTurn candidate "An array."]
       (ROk "Thank you, this CONCLUDES our interview.")
       (drop_pending 0 (handleSendResponse (snapshot w) "An array." w)))))
  = [PReport [] (reportContext (ui w))].
Proof.
  intros w.
  apply (concluding_reply_report_misses_last_exchange true [] (snapshot w) "An array."
           "Thank you, this CONCLUDES our interview." demo_chat w);
    vm_compute; reflexivity.
Defined.

(** C4: Start with neither a role nor a resume in the render's state (a
    job description alone is not enough) only sets the validation message:
    no chat is created, no request is issued, the view stays where it
    is. *)
Theorem start_requires_role_or_resume sn w :
  roleContext (s_ui sn) = "" -> resumeText (s_ui sn) = "" ->
  let w' := handleStartInterview sn w in
  error (ui w') = Some "Please provide a role/topic or upload a resume to start." /\
  chatRef (ui w') = chatRef (ui w) /\ pendings w' = pendings w /\
  interviewState (ui w') = interviewState (ui w) /\ history (ui w') = history (ui w) /\
  next_chat w' = next_chat w.
Proof.
  intros Hr Hs. unfold handleStartInterview. rewrite Hr, Hs. world_cbn. done.
Qed.

Lemma start_requires_role_or_resume_witness :
  error (ui (handleStartInterview (snapshot (init_world true)) (init_world true)))
  = Some "Please provide a role/topic or upload a resume to start.".
Proof.
  apply (start_requires_role_or_resume (snapshot (init_world true)) (init_world true));
    reflexivity.
Defined.

(** C3: Start from the setup view with a role or a resume creates one
    chat seeded with the system instruction built from the render's
    fields and issues the opening message; when its reply arrives the
    reply is the whole transcript, the view is [running], loading is over,
    and the reply is handed to [speak] through the render that pressed
    Start. *)
Theorem start_then_greeting sup vs w t :
  (js_truthy (roleContext (ui w)) || js_truthy (resumeText (ui w)))%bool = true ->
  let sn := snapshot w in
  let c := mkChat (next_chat w) "gemini-2.5-flash"
             (systemInstruction (interviewType (ui w)) (interviewDuration (ui w))
                (resumeText (ui w)) (jobDescription (ui w)) (roleContext (ui w))) in
  let w1 := handleStartInterview sn w in
  let w2 := startResumed sup vs sn (ROk t) (drop_pending (length (pendings w)) w1) in
  pendings w1 = pendings w ++ [PStart sn c] /\ chatRef (ui w2) = Some c /\
  interviewState (ui w2) = running /\ history (ui w2) = [mkTurn interviewer t] /\
  isLoading (ui w2) = false /\ pendings w2 = pendings w /\
  syn w2 = Synthesis.speak sup (Synthesis.isSpeaking (syn w)) vs t (syn w).
Proof.
  intros Hin. unfold handleStartInterview, startResumed.
  assert (Hg : (negb (js_truthy (roleContext (ui w))) &&
                negb (js_truthy (resumeText (ui w))))%bool = false).
  { destruct (js_truthy (roleContext (ui w))), (js_truthy (resumeText (ui w)));
      simpl in *; congruence. }
  world_cbn. rewrite Hg. world_cbn. by autorewrite with prep_rw.
Qed.

Lemma start_then_greeting_witness :
  let w := with_ui (setRoleContext "Arrays" init_ui) (init_world true) in
  history (ui (startResumed true [] (snapshot w) (ROk greeting)
                 (drop_pending 0 (handleStartInterview (snapshot w) w))))
  = [mkTurn interviewer greeting].
Proof.
  intros w. apply (start_then_greeting true [] w greeting). reflexivity.
Defined.

(** C5: the system instruction always states the target duration
    ("approximately N minutes."), and whenever a role or topic is given it
    quotes it: verbatim as the subject of a general interview when there
    is neither a resume nor a job description, as the role's context
    otherwise. *)
Theorem instruction_mentions_duration_and_role t d resume jd role :
  includes (systemInstruction t d resume jd role)
    ("approximately " +:+ nat_to_string (minutes d) +:+ " minutes.") = true /\
  (js_truthy role = true ->
   includes (systemInstruction t d resume jd role) (dq +:+ role +:+ dq) = true).
Proof.
  unfold systemInstruction. split.
  - apply includes_app_r, includes_app_r.
    change (" interview that lasts approximately " +:+ ?x)
      with (" interview that lasts " +:+ "approximately " +:+ x).
    apply includes_infix3.
  - intros Hr.
    destruct (js_truthy resume) eqn:Er, (js_truthy jd) eqn:Ej.
    4: { do 10 apply includes_app_r. apply includes_app_l.
         unfold general_part. rewrite Er, Ej, Hr. apply includes_infix3. }
    all: do 12 apply includes_app_r; apply includes_app_l;
         unfold context_part; rewrite Er, Ej, Hr; apply includes_infix3.
Qed.

(** The scenario of spec section 8: a five-minute technical interview on
    "Arrays" with no resume and no job description. *)
Lemma instruction_mentions_duration_and_role_witness :
  includes (systemInstruction Technical D5 "" "" "Arrays")
    ("approximately " +:+ nat_to_string 5 +:+ " minutes.") = true /\
  includes (systemInstruction Technical D5 "" "" "Arrays") (dq +:+ "Arrays" +:+ dq) = true.
Proof.
  split.
  - exact (proj1 (instruction_mentions_duration_and_role Technical D5 "" "" "Arrays")).
  - apply (proj2 (instruction_mentions_duration_and_role Technical D5 "" "" "Arrays")).
    reflexivity.
Defined.

Lemma chat_open_rtc sup vs w w' :
  rtc (step sup vs true) w w' -> chat_open w -> chat_open w'.
Proof. induction 1; eauto using chat_open_step. Qed.

(** C6: under the single-request discipline, the running view always has
    an open chat handle, so an answer is never silently dropped by the
    [!chatRef.current] check of [handleSendResponse]. *)
Theorem guarded_running_has_chat sup vs b w :
  rtc (step sup vs true) (init_world b) w ->
  interviewState (ui w) = running -> is_Some (chatRef (ui w)).
Proof.
  intros H. apply (chat_open_rtc _ _ _ _ H). split; [discriminate|constructor].
Qed.

Definition opened : World :=
  default (init_world true) (run true [] true (init_world true)
    [ESetRole "Arrays"; EStart; EStartReply 0 (ROk greeting)]).

Lemma guarded_running_has_chat_witness : is_Some (chatRef (ui opened)).
Proof.
  apply (guarded_running_has_chat true [] true opened).
  - apply run_sound with [ESetRole "Arrays"; EStart; EStartReply 0 (ROk greeting)].
    vm_compute. reflexivity.
  - vm_compute. reflexivity.
Defined.

(** ** The session state machine of spec section 4.1 *)

(** The abstract machine: start, end, report received, report failed,
    new interview. *)
Inductive session_step : InterviewState -> InterviewState -> Prop :=
| SS_start : session_step setup running
| SS_end : session_step running generatingReport
| SS_report : session_step generatingReport finished
| SS_fail : session_step generatingReport setup
| SS_new : session_step finished setup.

(** Under the single-request discipline at most one continuation is
    pending, and a pending start or report belongs to the view that issued
    it. *)
Definition pending_ok (s : InterviewState) (p : pending) : Prop :=
  match p with
  | PStart _ _ => s = setup
  | PReport _ _ => s = generatingReport
  | _ => True
  end.

Definition one_pending (w : World) : Prop :=
  length (pendings w) <= 1 /\ Forall (pending_ok (interviewState (ui w))) (pendings w).

Lemma single_pending (l : list pending) i p :
  length l <= 1 -> l !! i = Some p -> l = [p] /\ delete i l = [].
Proof.
  intros Hl Hi. destruct l as [|x [|y l]].
  - by rewrite lookup_nil in Hi.
  - destruct i as [|i]; cbn in Hi; simplify_eq; done.
  - cbn in Hl. lia.
Qed.

Lemma one_pending_step sup vs w w' : one_pending w -> step sup vs true w w' -> one_pending w'.
Proof.
  intros [Hl Hf] Hs.
  assert (Hone : forall i p, pendings w !! i = Some p ->
                 pending_ok (interviewState (ui w)) p /\ delete i (pendings w) = []).
  { intros i p Hi. destruct (single_pending _ _ _ Hl Hi) as [Hp Hd].
    rewrite Hp in Hf. by inversion Hf. }
  unfold one_pending. step_cases Hs;
    try match goal with H : pendings _ !! _ = Some _ |- _ =>
          destruct (Hone _ _ H) as [Hok ->]; cbn in Hok end;
    try match goal with H : true = true -> _ |- _ => specialize (H eq_refl) end;
    repeat match goal with H : pendings _ = [] |- _ => rewrite H end;
    cbn; split; try lia; forall_solve; try done.
Qed.

Lemma session_state_step sup vs w w' :
  one_pending w -> step sup vs true w w' ->
  interviewState (ui w') = interviewState (ui w) \/
  session_step (interviewState (ui w)) (interviewState (ui w')) \/
  interviewState (ui w') = generatingReport.
Proof.
  intros [Hl Hf] Hs.
  assert (Hone : forall i p, pendings w !! i = Some p -> pending_ok (interviewState (ui w)) p).
  { intros i p Hi. destruct (single_pending _ _ _ Hl Hi) as [Hp _].
    rewrite Hp in Hf. by inversion Hf. }
  step_cases Hs;
    try match goal with H : pendings _ !! _ = Some _ |- _ => pose proof (Hone _ _ H) as Hok;
          cbn in Hok end;
    repeat match goal with H : interviewState (ui _) = _ |- _ => rewrite H end;
    first [by left | by (right; right) | (right; left; constructor)].
Qed.

Lemma one_pending_rtc sup vs w w' :
  rtc (step sup vs true) w w' -> one_pending w -> one_pending w'.
Proof. induction 1; eauto using one_pending_step. Qed.

(** ** Interleavings *)

Definition is_send (p : pending) : bool :=
  match p with PSend _ _ _ _ => true | _ => false end.
Definition in_flight (f : pending -> bool) (w : World) : nat :=
  length (List.filter f (pendings w)).

(** Role, Start, the greeting. *)
Definition opening : list event :=
  [ESetRole "Arrays"; EStart; EStartReply 0 (ROk greeting)].

(** One spoken answer: microphone on, the effect records it, a final
    result, microphone off, the engine ends, the effect sends. *)
Definition answer (x : string) : list event :=
  [EMic; EListenEffect; ERecResult 0 [mkResult true x]; EMic; ERecEnd; EListenEffect].

(** C7: the microphone stays enabled while an answer is awaiting its
    reply ([handleSendResponse] has no busy check and the button no
    [disabled]), so a second answer is sent on the same chat while the
    first is in flight: two requests are outstanding on one conversation
    handle. *)
Theorem concurrent_sends :
  exists w, rtc (step true [] false) (init_world true) w /\
    in_flight is_send w = 2 /\ interviewState (ui w) = running.
Proof.
  apply (run_exists _ _ _ _ (opening ++ answer "first" ++ answer "second")).
  vm_compute. split; reflexivity.
Qed.

(** C8: when those two replies arrive, each continuation overwrites the
    transcript with the history its closure computed: the interviewer's
    first reply is lost and two candidate turns end up adjacent. *)
Theorem lost_interviewer_reply :
  exists w, rtc (step true [] false) (init_world true) w /\
    history (ui w) = [mkTurn interviewer greeting; mkTurn candidate "first";
                      mkTurn candidate "second"; mkTurn interviewer "Thank you."].
Proof.
  apply (run_exists _ _ _ _ (opening ++ answer "first" ++ answer "second" ++
           [ESendReply 0 (ROk "What is a linked list?"); ESendReply 0 (ROk "Thank you.")])).
  vm_compute. reflexivity.
Qed.

(** C9: End Interview while the microphone is on stops capture, which
    fires the listening effect: the words spoken so far are sent to the
    chat after the report was requested without them; a closing reply to
    that late answer starts a second report request. *)
Theorem end_while_listening_second_report :
  exists w, rtc (step true [] false) (init_world true) w /\
    interviewState (ui w) = generatingReport /\ in_flight is_report w = 2 /\
    history (ui w) = [mkTurn interviewer greeting; mkTurn candidate "partial";
                      mkTurn interviewer closing_line].
Proof.
  apply (run_exists _ _ _ _ (opening ++
           [EMic; EListenEffect; ERecResult 0 [mkResult true "partial"]; EStop;
            EListenEffect; ESendReply 1 (ROk closing_line); ETimer 1])).
  vm_compute. split_and!; reflexivity.
Qed.

(** C10: even with one request at a time, a failed reply leaves the
    candidate's turn in the transcript, and the next answer follows it:
    turns do not alternate, contrary to spec section 8. *)
Theorem failed_send_adjacent_candidates :
  exists w, rtc (step true [] true) (init_world true) w /\
    history (ui w) = [mkTurn interviewer greeting; mkTurn candidate "first";
                      mkTurn candidate "second"] /\
    error (ui w) = Some "There was an error with the interview. Please try again.".
Proof.
  apply (run_exists _ _ _ _ (opening ++ answer "first" ++ [ESendReply 0 RFail] ++
           answer "second")).
  vm_compute. split; reflexivity.
Qed.

(** C11: a failed report returns to [setup] with the failure message and
    keeps the transcript, the role and the chat (the spec says they are
    discarded); a second Start then succeeds with a fresh chat and a fresh
    transcript (spec section 8's last scenario). *)
Theorem report_failure_then_restart :
  (exists w, rtc (step true [] true) (init_world true) w /\
     interviewState (ui w) = setup /\ isLoading (ui w) = false /\
     error (ui w) = Some "Failed to generate the interview report." /\
     history (ui w) = [mkTurn interviewer greeting] /\
     roleContext (ui w) = "Arrays" /\ option_map chat_id (chatRef (ui w)) = Some 0) /\
  (exists w, rtc (step true [] true) (init_world true) w /\
     interviewState (ui w) = running /\ history (ui w) = [mkTurn interviewer greeting] /\
     option_map chat_id (chatRef (ui w)) = Some 1).
Proof.
  split.
  - apply (run_exists _ _ _ _ (opening ++ [EStop; EReportReply 0 RepFail])).
    vm_compute. split_and!; reflexivity.
  - apply (run_exists _ _ _ _ (opening ++ [EStop; EReportReply 0 RepFail; EStart;
                                          EStartReply 0 (ROk greeting)])).
    vm_compute. split_and!; reflexivity.
Qed.

(** C12: the timer path stops capture through the closure of the render
    that sent the last answer, which saw the microphone off; if the
    candidate reopened the microphone meanwhile, capture is still on when
    the report arrives, and the interview is [finished] while the
    recognizer keeps listening. *)
Theorem finished_while_listening :
  exists w, rtc (step true [] false) (init_world true) w /\
    interviewState (ui w) = finished /\ Recognition.isListening (rec w) = true.
Proof.
  apply (run_exists _ _ _ _ (opening ++ answer "first" ++
           [EMic; EListenEffect; ESendReply 0 (ROk closing_line); ETimer 0;
            EReportReply 0 (RepOk sample_report)])).
  vm_compute. split; reflexivity.
Qed.

(** C31: under the single-request discipline the view follows the
    session machine of spec section 4.1 except for entries into
    [generatingReport]: [running] is entered only from [setup] by the
    opening reply, [finished] and a return to [setup] only from
    [generatingReport] by the report's reply, or from [finished] by Try
    Another Interview. *)
Theorem guarded_session_refinement sup vs b w w' :
  rtc (step sup vs true) (init_world b) w -> step sup vs true w w' ->
  interviewState (ui w') = interviewState (ui w) \/
  session_step (interviewState (ui w)) (interviewState (ui w')) \/
  interviewState (ui w') = generatingReport.
Proof.
  intros Hr Hs. apply (session_state_step sup vs w w'); [|exact Hs].
  apply (one_pending_rtc _ _ _ _ Hr). split; [cbn; lia|constructor].
Qed.

Lemma guarded_session_refinement_witness :
  interviewState (ui (micClick opened)) = interviewState (ui opened) \/
  session_step (interviewState (ui opened)) (interviewState (ui (micClick opened))) \/
  interviewState (ui (micClick opened)) = generatingReport.
Proof.
  apply (guarded_session_refinement true [] true opened).
  - apply run_sound with [ESetRole "Arrays"; EStart; EStartReply 0 (ROk greeting)].
    vm_compute. reflexivity.
  - apply (exec_sound true [] true opened EMic). vm_compute. reflexivity.
Defined.

(** C32: the exception is real even under the discipline: ending the
    interview while the microphone is on sends the words spoken so far
    once the report has arrived; a closing reply to them sets the timer,
    and the timer leaves [finished] for a second [generatingReport] (the
    spec's machine has no edge out of [finished] but Try Another
    Interview). *)
Theorem guarded_finished_to_second_report :
  exists w w', rtc (step true [] true) (init_world true) w /\ step true [] true w w' /\
    interviewState (ui w) = finished /\ interviewState (ui w') = generatingReport.
Proof.
  set (evs := opening ++ [EMic; EListenEffect; ERecResult 0 [mkResult true "partial"]; EStop;
                          EReportReply 0 (RepOk sample_report); EListenEffect;
                          ESendReply 0 (ROk closing_line)]).
  destruct (run true [] true (init_world true) evs) as [w|] eqn:E; [|vm_compute in E; done].
  destruct (exec true [] true w (ETimer 0)) as [w'|] eqn:E'.
  - exists w, w'. split_and!.
    + exact (run_sound _ _ _ _ _ _ E).
    + exact (exec_sound _ _ _ _ _ _ E').
    + vm_compute in E. injection E as <-. reflexivity.
    + vm_compute in E. injection E as <-. vm_compute in E'. injection E' as <-. reflexivity.
  - vm_compute in E. injection E as <-. vm_compute in E'. done.
Qed.

Lemma no_report_yet_rtc vs g w w' :
  rtc (step false vs g) w w' -> no_report_yet w -> no_report_yet w'.
Proof. induction 1; eauto using no_report_yet_step. Qed.

(** C13: in a browser without [speechSynthesis] no run ever asks for, awaits
    or shows a report: End Interview and the closing timer call
    [generateAndSetReport], whose line 113 throws after it has turned the
    loading flag and the microphone off, so the view stays where it was
    (spec section 7: a missing speech capability only disables that
    feature, and no error is fatal). *)
Theorem no_synthesis_no_report vs g b w :
  rtc (step false vs g) (init_world b) w ->
  interviewState (ui w) <> generatingReport /\ interviewState (ui w) <> finished /\
  report (ui w) = None.
Proof.
  intros Hr. destruct (no_report_yet_rtc _ _ _ _ Hr) as (? & ? & ? & _); [|done].
  split_and!; [done..|]. by constructor.
Qed.

Lemma no_synthesis_no_report_witness :
  let w := default (init_world true) (run false [] true (init_world true) (opening ++ [EStop])) in
  interviewState (ui w) = running /\
  (interviewState (ui w) <> generatingReport /\ interviewState (ui w) <> finished /\
   report (ui w) = None).
Proof.
  intros w. split; [vm_compute; reflexivity|].
  apply (no_synthesis_no_report [] true true w).
  apply (run_sound false [] true (init_world true) (opening ++ [EStop])). vm_compute. reflexivity.
Defined.

End Interview.
