(* ===== verification/InterviewReact.v ===== *)
(** The reactions of the interview view of [Interview.v]: what happens
    without the candidate, the browser's speech engines or the speaker
    acting — the settling of pending promises ([readFileAsText], the
    opening message, an answer's reply, the report), the [setTimeout] of
    the closing line, and the two effects.

    [react_step] is that part of [Interview.step], rule for rule.  Its
    termination is proved by a variant: each pending continuation weighs
    what it can still cause (an answer's reply may set the timer, the
    timer requests the report), and an effect that has not yet seen the
    current listening flag weighs more than the answer it may send.  The
    variant decreases because the timer stops the recognizer through a
    closure that saw it stopped: every answer is sent by the listening
    effect once capture is off ([quiet_snaps]). *)

From S2P Require Import Prelude JsString Types SpeechRecognition SpeechSynthesis Interview.

Module InterviewReact.
Import Interview Recognition Synthesis.

Section React.
Context (synSupported : bool) (voices : list Voice) (guard : bool).

Local Abbreviation idle w := (guard = true -> pendings w = []).

Inductive react_step : World -> World -> Prop :=
| R_file i r w : pendings w !! i = Some PFile ->
    react_step w (fileResumed r (drop_pending i w))
| R_start_reply i sn c r w : pendings w !! i = Some (PStart sn c) ->
    react_step w (startResumed synSupported voices sn r (drop_pending i w))
| R_send_reply i sn c m nh r w : pendings w !! i = Some (PSend sn c m nh) ->
    react_step w (sendResumed synSupported voices sn nh r (drop_pending i w))
| R_timer i sn w : pendings w !! i = Some (PTimer sn) ->
    react_step w (generateAndSetReport synSupported sn (drop_pending i w))
| R_report_reply i h ctx r w : pendings w !! i = Some (PReport h ctx) ->
    react_step w (reportResumed r (drop_pending i w))
| R_listen_effect w : Recognition.isListening (rec w) <> eff_listening w -> idle w ->
    react_step w (listenEffect w)
| R_error_effect w : Recognition.error (rec w) <> eff_speechError w ->
    react_step w (speechErrorEffect w).

Lemma react_step_step w w' : react_step w w' -> step synSupported voices guard w w'.
Proof. destruct 1; econstructor; eauto. Qed.

End React.

(** Every answer and every closing timer was issued from a render that
    saw the microphone off. *)
Definition quiet (p : pending) : Prop :=
  match p with
  | PSend sn _ _ _ | PTimer sn => s_listening sn = false
  | _ => True
  end.

Definition quiet_snaps (w : World) : Prop := Forall quiet (pendings w).

(** The variant. *)
Definition weight (p : pending) : nat :=
  match p with
  | PSend _ _ _ _ => 3
  | PTimer _ => 2
  | PStart _ _ | PReport _ _ | PFile => 1
  end.

Definition unseen (w : World) : nat :=
  (if bool_decide (Recognition.isListening (rec w) = eff_listening w) then 0 else 4) +
  (if bool_decide (Recognition.error (rec w) = eff_speechError w) then 0 else 1).

Definition variant (w : World) : nat := sum_list_with weight (pendings w) + unseen w.

(** ** Lemmas *)

Lemma quiet_snaps_step sup vs g w w' :
  quiet_snaps w -> step sup vs g w w' -> quiet_snaps w'.
Proof.
  unfold quiet_snaps. intros Hq Hs.
  assert (Hl : forall i p, pendings w !! i = Some p -> quiet p)
    by (intros i p Hi; exact (Forall_lookup_1 _ _ _ _ Hq Hi)).
  step_cases Hs;
    try match goal with H : pendings _ !! _ = Some _ |- _ => pose proof (Hl _ _ H) end;
    forall_solve; cbn in *; bool_hyps; try done.
Qed.

Lemma quiet_snaps_rtc sup vs g w w' :
  rtc (step sup vs g) w w' -> quiet_snaps w -> quiet_snaps w'.
Proof. induction 1; eauto using quiet_snaps_step. Qed.

(** [stopListening] through a closure that saw capture off does nothing. *)
Lemma stopListening_unseen r : Recognition.stopListening false r = r.
Proof. unfold Recognition.stopListening. by destruct (recognitionRef r). Qed.

Lemma variant_drop i p w :
  pendings w !! i = Some p ->
  sum_list_with weight (pendings w) = weight p + sum_list_with weight (delete i (pendings w)).
Proof. apply sum_list_with_delete. Qed.

Lemma react_variant sup vs g w w' :
  quiet_snaps w -> react_step sup vs g w w' -> variant w' < variant w.
Proof.
  intros Hq Hs. unfold variant.
  destruct Hs as [i r w Hi|i sn c r w Hi|i sn c m nh r w Hi|i sn w Hi|i h ctx r w Hi|w Hl _|w He];
    try (rewrite (variant_drop _ _ _ Hi); cbn [weight]);
    try (pose proof (Forall_lookup_1 _ _ _ _ Hq Hi) as Hsn; cbn in Hsn).
  - destruct r; unfold unseen; cbn; lia.
  - destruct r; unfold startResumed; world_cbn; unfold unseen; cbn; lia.
  - destruct r; unfold sendResumed; world_cbn; [case_match|]; world_cbn;
      rewrite ?sum_list_with_app; unfold unseen; cbn; lia.
  - unfold generateAndSetReport. world_cbn. rewrite Hsn, stopListening_unseen.
    destruct sup; world_cbn; rewrite ?sum_list_with_app; unfold unseen; cbn; lia.
  - destruct r; unfold unseen; cbn; lia.
  - unfold listenEffect. case_match; unfold handleSendResponse; repeat case_match; world_cbn;
      rewrite ?sum_list_with_app; unfold unseen; cbn; repeat case_bool_decide; try congruence; lia.
  - unfold speechErrorEffect. repeat case_match; world_cbn; unfold unseen; cbn;
      repeat case_bool_decide; try congruence; lia.
Qed.

(** ** Theorems *)

(** C35: the reactions of the interview terminate: from every reachable
    state, with any replies, every sequence of settled promises, timer
    callbacks and effect runs is finite, so the view always comes to rest
    until the candidate, the speech engines or the speaker act again. *)
Theorem reactions_terminate sup vs g b w :
  rtc (step sup vs g) (init_world b) w ->
  Acc (fun w2 w1 => react_step sup vs g w1 w2) w.
Proof.
  intros Hr. pose proof (quiet_snaps_rtc _ _ _ _ _ Hr ltac:(constructor)) as Hq. clear Hr.
  remember (variant w) as n eqn:En. revert w En Hq.
  induction n as [n IH] using lt_wf_ind. intros w -> Hq.
  constructor. intros w' Hs.
  apply (IH (variant w')); [exact (react_variant _ _ _ _ _ Hq Hs)|done|].
  exact (quiet_snaps_step _ _ _ _ _ Hq (react_step_step _ _ _ _ _ Hs)).
Qed.

Lemma reactions_terminate_witness :
  Acc (fun w2 w1 => react_step true [] false w1 w2) (init_world true).
Proof. apply (reactions_terminate true [] false true). apply rtc_refl. Defined.

End InterviewReact.
