(* ===== verification/Quiz.v ===== *)
(** The quiz generator [src/components/Quiz.tsx].

    State: the component's eleven [useState] cells.  Its handlers are
    called from the current render (the buttons are re-rendered after every
    change), so they read the live state; [handleGenerate] awaits the
    service, and its continuation is a pending request of the world.  An
    access [questions[i].answer] out of range is the [TypeError] it raises
    in JavaScript ([Threw]). *)

From Stdlib Require Import ZArith.
From S2P Require Import Prelude JsString Types.

Module QuizMode.

Record Quiz := mkQuiz {
  topic : string;
  numQuestions : nat;
  difficulty : string;
  questions : list QuizQuestion;
  currentQuestionIndex : nat;
  selectedAnswer : option string;
  score : nat;
  showResults : bool;
  isLoading : bool;
  error : option string;
  isAnswered : bool;
}.

Definition init : Quiz := mkQuiz "" 5 "Medium" [] 0 None 0 false false None false.

(** [handleGenerate] up to its [await] (lines 24-38); the boolean says
    whether the request was issued. *)
Definition handleGenerate (q : Quiz) : Quiz * bool :=
  if negb (js_truthy (topic q)) then
    (mkQuiz (topic q) (numQuestions q) (difficulty q) (questions q)
       (currentQuestionIndex q) (selectedAnswer q) (score q) (showResults q)
       (isLoading q) (Some "Please enter a topic.") (isAnswered q), false)
  else
    (mkQuiz (topic q) (numQuestions q) (difficulty q) [] 0 (selectedAnswer q) 0 false
       true None (isAnswered q), true).

(** [handleGenerate] after its [await] (lines 39-45): the questions read
    from the reply, or the failure. *)
Definition generateResumed (r : option (list QuizQuestion)) (q : Quiz) : Quiz :=
  match r with
  | Some qs =>
      mkQuiz (topic q) (numQuestions q) (difficulty q) qs (currentQuestionIndex q)
        (selectedAnswer q) (score q) (showResults q) false (error q) (isAnswered q)
  | None =>
      mkQuiz (topic q) (numQuestions q) (difficulty q) (questions q)
        (currentQuestionIndex q) (selectedAnswer q) (score q) (showResults q) false
        (Some "Failed to generate quiz. Please try again.") (isAnswered q)
  end.

Inductive outcome := Done (q : Quiz) | Threw (q : Quiz).

Definition outcome_state (o : outcome) : Quiz :=
  match o with Done q => q | Threw q => q end.

(** [handleAnswerSelect] (lines 48-55). *)
Definition handleAnswerSelect (option : string) (q : Quiz) : outcome :=
  if isAnswered q then Done q
  else
    let q1 := mkQuiz (topic q) (numQuestions q) (difficulty q) (questions q)
                (currentQuestionIndex q) (Some option) (score q) (showResults q)
                (isLoading q) (error q) true in
    match questions q !! currentQuestionIndex q with
    | Some cur =>
        if String.eqb option (answer cur)
        then Done (mkQuiz (topic q1) (numQuestions q1) (difficulty q1) (questions q1)
                     (currentQuestionIndex q1) (selectedAnswer q1) (S (score q1))
                     (showResults q1) (isLoading q1) (error q1) (isAnswered q1))
        else Done q1
    | None => Threw q1
    end.

(** [handleNextQuestion] (lines 57-65); the test is on JS numbers. *)
Definition handleNextQuestion (q : Quiz) : Quiz :=
  if (Z.of_nat (currentQuestionIndex q) <? Z.of_nat (length (questions q)) - 1)%Z
  then mkQuiz (topic q) (numQuestions q) (difficulty q) (questions q)
         (S (currentQuestionIndex q)) None (score q) (showResults q) (isLoading q)
         (error q) false
  else mkQuiz (topic q) (numQuestions q) (difficulty q) (questions q)
         (currentQuestionIndex q) None (score q) true (isLoading q) (error q) false.

(** [handleRestart] (lines 67-73). *)
Definition handleRestart (q : Quiz) : Quiz :=
  mkQuiz "" (numQuestions q) (difficulty q) [] 0 (selectedAnswer q) 0 false
    (isLoading q) (error q) (isAnswered q).

Definition setTopic (v : string) (q : Quiz) : Quiz :=
  mkQuiz v (numQuestions q) (difficulty q) (questions q) (currentQuestionIndex q)
    (selectedAnswer q) (score q) (showResults q) (isLoading q) (error q) (isAnswered q).
Definition setNumQuestions (v : nat) (q : Quiz) : Quiz :=
  mkQuiz (topic q) v (difficulty q) (questions q) (currentQuestionIndex q)
    (selectedAnswer q) (score q) (showResults q) (isLoading q) (error q) (isAnswered q).
Definition setDifficulty (v : string) (q : Quiz) : Quiz :=
  mkQuiz (topic q) (numQuestions q) v (questions q) (currentQuestionIndex q)
    (selectedAnswer q) (score q) (showResults q) (isLoading q) (error q) (isAnswered q).

(** ** The component with its pending request *)

Record QuizWorld := mkQW { quiz : Quiz; generating : nat }.

(** One rule per control the rendered view offers: the form while there
    are no questions (lines 133-179), the option buttons while a question
    is shown and not answered ([disabled={isAnswered}], line 106), Next
    after an answer (line 116), Take Another Quiz with the results
    (line 81). *)
Inductive qstep : QuizWorld -> QuizWorld -> Prop :=
| QS_topic v q n : questions q = [] -> qstep (mkQW q n) (mkQW (setTopic v q) n)
| QS_num v q n : questions q = [] -> v ∈ [5; 10; 15] ->
    qstep (mkQW q n) (mkQW (setNumQuestions v q) n)
| QS_diff v q n : questions q = [] -> qstep (mkQW q n) (mkQW (setDifficulty v q) n)
| QS_generate q n : questions q = [] -> isLoading q = false ->
    qstep (mkQW q n)
      (mkQW (handleGenerate q).1 (if (handleGenerate q).2 then S n else n))
| QS_reply r q n : qstep (mkQW q (S n)) (mkQW (generateResumed r q) n)
| QS_answer opt q n : questions q <> [] -> showResults q = false -> isAnswered q = false ->
    qstep (mkQW q n) (mkQW (outcome_state (handleAnswerSelect opt q)) n)
| QS_next q n : questions q <> [] -> showResults q = false -> isAnswered q = true ->
    qstep (mkQW q n) (mkQW (handleNextQuestion q) n)
| QS_restart q n : questions q <> [] -> showResults q = true ->
    qstep (mkQW q n) (mkQW (handleRestart q) n).

(** ** Invariant *)

(** Questions answered so far: all of them once the results are shown. *)
Definition answered (q : Quiz) : nat :=
  if showResults q then length (questions q)
  else currentQuestionIndex q + (if isAnswered q then 1 else 0).

Definition quiz_inv (q : Quiz) : Prop :=
  (questions q <> [] -> currentQuestionIndex q < length (questions q)) /\
  (questions q = [] -> currentQuestionIndex q = 0 /\ score q = 0 /\
                       showResults q = false /\ isAnswered q = false) /\
  (showResults q = true -> isAnswered q = false) /\
  score q <= answered q.

Definition qw_inv (w : QuizWorld) : Prop :=
  quiz_inv (quiz w) /\ generating w <= 1 /\
  (generating w = 1 -> questions (quiz w) = [] /\ isLoading (quiz w) = true).

Lemma qw_inv_init : qw_inv (mkQW init 0).
Proof. unfold qw_inv, quiz_inv, answered; simpl. split_and!; try done; lia. Qed.

Lemma nonempty_length {A} (l : list A) : l <> [] -> 0 < length l.
Proof. destruct l; simpl; [done|lia]. Qed.

Lemma qw_inv_step w w' : qw_inv w -> qstep w w' -> qw_inv w'.
Proof.
  unfold qw_inv, quiz_inv, answered.
  intros [[Hi [He [Hs Hsc]]] [Hn Hg]] Hst; destruct Hst; cbn [quiz generating] in *.
  - simpl. split_and!; auto.
  - simpl. split_and!; auto.
  - simpl. split_and!; auto.
  - unfold handleGenerate. destruct (He H) as (Hc0 & Hsc0 & Hr0 & Ha0).
    assert (n = 0) as ->.
    { destruct (decide (n = 1)) as [E|]; [destruct (Hg E); congruence|lia]. }
    destruct (js_truthy (topic q)); simpl; rewrite ?Ha0, ?Hr0;
      split_and!; try done; try lia; auto.
  - destruct (Hg ltac:(lia)) as [Hq _]. destruct (He Hq) as (Hc & Hs0 & Hr & Ha).
    destruct r as [qs|]; simpl; rewrite ?Hc, ?Hs0, ?Hr, ?Ha; split_and!; try done; try lia;
      auto using nonempty_length.
  - specialize (Hi H). rewrite H0, H1 in Hsc. unfold handleAnswerSelect. rewrite H1.
    assert (n <> 1) by (intros E; destruct (Hg E); congruence).
    destruct (questions q !! currentQuestionIndex q) as [cur|];
      [destruct (String.eqb opt (answer cur))|]; simpl; rewrite ?H0;
      split_and!; try done; try lia; intros; exfalso; lia.
  - specialize (Hi H). rewrite H0, H1 in Hsc. unfold handleNextQuestion.
    assert (n <> 1) by (intros E; destruct (Hg E); congruence).
    destruct (Z.ltb_spec (Z.of_nat (currentQuestionIndex q))
                         (Z.of_nat (length (questions q)) - 1)); simpl; rewrite ?H0;
      split_and!; try done; try lia; intros; exfalso; lia.
  - specialize (Hs H0). assert (n <> 1) by (intros E; destruct (Hg E); congruence).
    simpl. split_and!; try done; try lia; intros; exfalso; lia.
Qed.

Lemma qw_inv_rtc w w' : rtc qstep w w' -> qw_inv w -> qw_inv w'.
Proof. induction 1; eauto using qw_inv_step. Qed.

Lemma qw_reachable_inv w : rtc qstep (mkQW init 0) w -> qw_inv w.
Proof. intros H. exact (qw_inv_rtc _ _ H qw_inv_init). Qed.

(** One answer then Next, from a question view with [k] questions left:
    the results screen is reached with the same questions. *)
Lemma results_reachable k w :
  qw_inv w -> questions (quiz w) <> [] -> showResults (quiz w) = false ->
  length (questions (quiz w)) - currentQuestionIndex (quiz w) = k ->
  exists w', rtc qstep w w' /\ showResults (quiz w') = true /\
    questions (quiz w') = questions (quiz w).
Proof.
  revert w. induction k as [k IH] using lt_wf_ind. intros [q n] Hinv Hne Hs Hk.
  cbn [quiz] in *.
  assert (currentQuestionIndex q < length (questions q)) as Hidx
    by (destruct Hinv as [[Hi _] _]; exact (Hi Hne)).
  (* answer first when the current question is still open *)
  assert (exists q1, rtc qstep (mkQW q n) (mkQW q1 n) /\ qw_inv (mkQW q1 n) /\
            questions q1 = questions q /\ currentQuestionIndex q1 = currentQuestionIndex q /\
            showResults q1 = false /\ isAnswered q1 = true) as (q1 & Hr1 & Hinv1 & Hq1 & Hi1 & Hs1 & Ha1).
  { destruct (isAnswered q) eqn:Ha; [exists q; split_and!; done|].
    pose proof (QS_answer "" q n Hne Hs Ha) as Hst.
    exists (outcome_state (handleAnswerSelect "" q)). split_and!;
      [by apply rtc_once|exact (qw_inv_step _ _ Hinv Hst)|..];
      unfold handleAnswerSelect; rewrite Ha;
      (destruct (questions q !! currentQuestionIndex q) as [cur|];
       [destruct (String.eqb "" (answer cur))|]); done. }
  pose proof (QS_next q1 n ltac:(by rewrite Hq1) Hs1 Ha1) as Hst.
  pose proof (qw_inv_step _ _ Hinv1 Hst) as Hinv2.
  assert (Hnx : rtc qstep (mkQW q n) (mkQW (handleNextQuestion q1) n))
    by (etrans; [exact Hr1|]; by apply rtc_once).
  unfold handleNextQuestion in Hinv2, Hnx.
  destruct (Z.ltb_spec (Z.of_nat (currentQuestionIndex q1))
                       (Z.of_nat (length (questions q1)) - 1)) as [Hlt|Hge].
  - destruct (IH (k - 1) ltac:(lia) _ Hinv2) as (w' & Hr' & Hs' & Hq');
      cbn [quiz questions currentQuestionIndex showResults];
      [by rewrite Hq1|done|rewrite Hq1, Hi1 in *; lia|].
    exists w'. split_and!; [by etrans|done|]. rewrite Hq'. exact Hq1.
  - eexists. split_and!; [exact Hnx|done|exact Hq1].
Qed.

(** ** Concrete run *)

Definition sample_question : QuizQuestion :=
  mkQuizQuestion "Which keyword declares an immutable binding in Rust?" ["let"; "mut"]
    "const" "Bindings declared with let are immutable by default.".

(** Topic, Start Quiz, a reply with one question. *)
Definition played : QuizWorld :=
  mkQW (generateResumed (Some [sample_question]) (handleGenerate (setTopic "Rust" init)).1) 0.

Lemma played_reachable : rtc qstep (mkQW init 0) played.
Proof.
  eapply rtc_l; [apply (QS_topic "Rust"); reflexivity|].
  eapply rtc_l; [apply QS_generate; reflexivity|]. cbn.
  eapply rtc_l; [apply (QS_reply (Some [sample_question]))|]. apply rtc_refl.
Qed.

(** ** Theorems *)

(** C21: whenever the question view is rendered (questions loaded, results
    not shown), [questions[currentQuestionIndex]] exists, so neither the
    render ([currentQuestion.question]) nor [handleAnswerSelect]
    ([questions[currentQuestionIndex].answer]) raises a [TypeError]. *)
Theorem quiz_current_question_exists w :
  rtc qstep (mkQW init 0) w -> questions (quiz w) <> [] ->
  (exists cur, questions (quiz w) !! currentQuestionIndex (quiz w) = Some cur) /\
  (forall opt, exists q', handleAnswerSelect opt (quiz w) = Done q').
Proof.
  intros H Hne. destruct (qw_reachable_inv w H) as [[Hi _] _].
  specialize (Hi Hne). apply lookup_lt_is_Some_2 in Hi as [cur Hcur].
  split; [by exists cur|]. intros opt. unfold handleAnswerSelect.
  destruct (isAnswered (quiz w)); [by eexists|]. rewrite Hcur.
  destruct (String.eqb opt (answer cur)); by eexists.
Qed.

Lemma quiz_current_question_exists_witness :
  exists cur, questions (quiz played) !! currentQuestionIndex (quiz played) = Some cur.
Proof.
  apply (quiz_current_question_exists played played_reachable). discriminate.
Defined.

(** C22: the score never exceeds the number of questions: the results
    screen's "score / questions.length" is at most 1. *)
Theorem quiz_score_bounded w :
  rtc qstep (mkQW init 0) w -> score (quiz w) <= length (questions (quiz w)).
Proof.
  intros H. destruct (qw_reachable_inv w H) as [[Hi [He [Hs Hsc]]] _].
  unfold answered in Hsc. destruct (decide (questions (quiz w) = [])) as [E|E].
  - destruct (He E) as (_ & -> & _). lia.
  - specialize (Hi E). destruct (showResults (quiz w)), (isAnswered (quiz w)); lia.
Qed.

Lemma quiz_score_bounded_witness : score (quiz played) <= 1.
Proof. exact (quiz_score_bounded played played_reachable). Defined.

(** C23: the component plays whatever the reply contains: a quiz asked
    for five questions is played with one, and a question whose answer is
    none of its two options is shown; no answer can score it (spec
    section 8 expects [count] questions of four options with the answer
    among them). *)
Theorem quiz_reply_unchecked :
  exists w, rtc qstep (mkQW init 0) w /\ numQuestions (quiz w) = 5 /\
    length (questions (quiz w)) = 1 /\
    (forall cur, questions (quiz w) !! 0 = Some cur ->
       length (options cur) = 2 /\ answer cur ∉ options cur) /\
    (forall opt, opt ∈ options sample_question ->
       score (outcome_state (handleAnswerSelect opt (quiz w))) = score (quiz w)).
Proof.
  exists played. split_and!; [exact played_reachable|done|done| |].
  - intros cur Hc. simpl in Hc. simplify_eq. split; [done|].
    cbn. rewrite !elem_of_cons. intros [H|[H|H]]; [discriminate|discriminate|].
    by apply not_elem_of_nil in H.
  - intros opt Hopt. cbn in Hopt. rewrite !elem_of_cons in Hopt.
    destruct Hopt as [->|[->|H]]; [done|done|by apply not_elem_of_nil in H].
Qed.

(** C33: the quiz can always be finished: from every reachable state with
    questions, answering each question in turn and pressing Next reaches
    the results screen, for the questions that were loaded. *)
Theorem quiz_can_finish w :
  rtc qstep (mkQW init 0) w -> questions (quiz w) <> [] ->
  exists w', rtc qstep w w' /\ showResults (quiz w') = true /\
    questions (quiz w') = questions (quiz w).
Proof.
  intros H Hne. destruct (showResults (quiz w)) eqn:Hs; [by exists w|].
  exact (results_reachable _ w (qw_reachable_inv w H) Hne Hs eq_refl).
Qed.

Lemma quiz_can_finish_witness :
  exists w', rtc qstep played w' /\ showResults (quiz w') = true /\
    questions (quiz w') = [sample_question].
Proof. apply (quiz_can_finish played played_reachable). discriminate. Defined.

End QuizMode.
