(* ===== verification/App.v ===== *)
(** The shell [src/App.tsx]: the [view] state, the feature list of the
    dashboard and [renderView].  The feature ids are strings that the
    dashboard casts to [View] ([feature.id as View], line 45); the cast
    leaves the string as it is at run time, and [view_of_string] reads it
    as the constructor of [View] it names.  The shell holds no logic
    beyond this routing, and no property is stated about it. *)

From S2P Require Import Prelude JsString.

Module App.

(** [type View] (line 9). *)
Inductive View := dashboard | ats | roadmap | quiz | interview | practice.

#[export] Instance View_eq_dec : EqDecision View.
Proof. solve_decision. Defined.

Definition view_str (v : View) : string :=
  match v with
  | dashboard => "dashboard" | ats => "ats" | roadmap => "roadmap"
  | quiz => "quiz" | interview => "interview" | practice => "practice"
  end.

(** The values of [View]: what a cast to it may soundly produce. *)
Definition views : list View := [dashboard; ats; roadmap; quiz; interview; practice].

Definition view_of_string (s : string) : option View :=
  List.find (fun v => String.eqb (view_str v) s) views.

Record Feature := mkFeature { feature_id : string; label : string; feature_desc : string }.

(** [features] (lines 14-20). *)
Definition features : list Feature :=
  [mkFeature "quiz" "Quiz Generator" "Test your knowledge with custom quizzes.";
   mkFeature "roadmap" "Roadmap Generator" "Get a learning plan for any skill.";
   mkFeature "ats" "ATS Resume Scanner" "Optimize your resume against a job.";
   mkFeature "practice" "Prep Arena" "Tackle practice questions from coding to behavioral and get instant feedback.";
   mkFeature "interview" "Mock Interview" "Simulate a real-time interview with AI."].

(** The component [renderView] mounts (lines 22-59). *)
Inductive Screen := SDashboard | SAts | SRoadmap | SQuiz | SInterview | SPractice.

Definition renderView (v : View) : Screen :=
  match v with
  | ats => SAts | roadmap => SRoadmap | quiz => SQuiz
  | interview => SInterview | practice => SPractice | dashboard => SDashboard
  end.

(** The transitions of [view]: a feature card of the dashboard
    ([setView(feature.id as View)]) and [onBack] of a tool. *)
Inductive app_step : View -> View -> Prop :=
| AP_open f v : In f features -> view_of_string (feature_id f) = Some v ->
    app_step dashboard v
| AP_back v : v <> dashboard -> app_step v dashboard.

End App.
